(** * Retrier: delay schedules and the retry loop

    A shallow embedding of package [retrier] (the [Retrier] type, the delay
    functions and [Run] / [RunCtx] / [sleep]) and the properties of its
    behaviour.

    Go's [time.Duration] is an [int64], and so is [int] on the 64-bit
    platforms: both are modelled as [Z] with the two's complement
    wrap-around of every arithmetic operation written out.

    The loop of [RunCtx] need not terminate (no limit, a task that always
    asks for a retry, a context that is never cancelled): it is modelled
    with fuel, and a property that says that a run returns gives the fuel
    that suffices. What a run does is recorded in a trace of events, so
    that invocations, suspensions and calls of the delay function can be
    counted. *)

From Stdlib Require Import ZArith List String Bool Lia.
Import ListNotations.
Open Scope Z_scope.

(** ** 64-bit signed integers *)

Module Int64.

Definition min_int : Z := - 2 ^ 63.
Definition max_int : Z := 2 ^ 63 - 1.

(** The values an [int] (or a [time.Duration]) can hold. *)
Definition in_range (z : Z) : Prop := min_int <= z <= max_int.

(** What is left of a mathematical result in 64 bits. *)
Definition wrap (z : Z) : Z := (z + 2 ^ 63) mod 2 ^ 64 - 2 ^ 63.

Definition add (a b : Z) : Z := wrap (a + b).
Definition mul (a b : Z) : Z := wrap (a * b).

End Int64.

(** ** Package time *)

Definition Duration : Type := Z.

Definition Nanosecond : Duration := 1.
Definition Microsecond : Duration := 1000 * Nanosecond.
Definition Millisecond : Duration := 1000 * Microsecond.
Definition Second : Duration := 1000 * Millisecond.

(** ** The delay functions *)

(** NoDelay returns a delay function that has no delay between retries. *)
Definition NoDelay : Z -> Duration :=
  fun retries => 0.

(** ConstantDelay: the closure binds [millis := delay] and returns
    [time.Duration(millis) * time.Millisecond]. *)
Definition ConstantDelay (delay : Duration) : Z -> Duration :=
  fun retries =>
    let millis := delay in
    Int64.mul millis Millisecond.

(** LinearDelay: [step + time.Duration(retries)*step]. *)
Definition LinearDelay (step : Duration) : Z -> Duration :=
  fun retries => Int64.add step (Int64.mul retries step).

(** CappedLinearDelay: the linear delay, or [cap] once the delay is no
    longer below it. *)
Definition CappedLinearDelay (step cap : Duration) : Z -> Duration :=
  fun retries =>
    let delay := Int64.add step (Int64.mul retries step) in
    if delay <? cap then delay else cap.

Section Exponential.

(** [math.Pow] is Go library code on [float64]: it is a parameter here.
    [intPow base retries] stands for the integer
    [int(math.Pow(float64(base), float64(retries)))]. *)
Variable intPow : Z -> Z -> Z.

(** ExponentialDelay: [millis := coef * int(math.Pow(...))], returned as
    [time.Duration(millis) * time.Millisecond]. Both [coef] and [base]
    are of type [int]. *)
Definition ExponentialDelay (coef base : Z) : Z -> Duration :=
  fun retries =>
    let millis := Int64.mul coef (intPow base retries) in
    Int64.mul millis Millisecond.

End Exponential.

(** ** Conversions between [int] and [float64]

    CappedExponentialDelay passes two [int] values through [float64]. A
    [float64] that comes from an [int] is an integer again, so these values
    are modelled by the integers they denote. *)

(** [float64(z)] for an [int] z: z itself when 53 bits hold it, otherwise z
    rounded to the nearest multiple of the spacing of the [float64] values
    around it, ties going to the even significand. *)
Definition float64_of_int (z : Z) : Z :=
  let a := Z.abs z in
  let e := Z.log2 a in
  if e <? 53 then z
  else
    let sh := e - 52 in
    let q := a / 2 ^ sh in
    let rem := a mod 2 ^ sh in
    let half := 2 ^ (sh - 1) in
    let q' := if (half <? rem) || ((rem =? half) && Z.odd q)
              then q + 1 else q in
    Z.sgn z * (q' * 2 ^ sh).

(** [math.Min] on finite values: [if x < y { return x }; return y]. *)
Definition math_Min (x y : Z) : Z :=
  if x <? y then x else y.

Section CappedExponential.

Variable intPow : Z -> Z -> Z.

(** What [int(f)] gives for a [float64] f that no [int] holds: the
    language leaves it to the implementation. *)
Variable int_overflow : Z.

(** [int(f)] for an integral [float64] f. *)
Definition int_of_float64 (f : Z) : Z :=
  if (Int64.min_int <=? f) && (f <=? Int64.max_int) then f else int_overflow.

(** CappedExponentialDelay:
    [raw := coef * int(math.Pow(float64(base), float64(retries)))],
    [millis := int(math.Min(float64(raw), float64(cap)))], returned as
    [time.Duration(millis) * time.Millisecond]. *)
Definition CappedExponentialDelay (coef base cap : Z) : Z -> Duration :=
  fun retries =>
    let raw := Int64.mul coef (intPow base retries) in
    let millis :=
      int_of_float64 (math_Min (float64_of_int raw) (float64_of_int cap)) in
    Int64.mul millis Millisecond.

End CappedExponential.

(** ** Errors

    A Go [error] is [nil] or an error value. The values that occur here are
    those of [errors.New] / [fmt.Errorf] without [%w] ([errorString]), of
    [fmt.Errorf] with one [%w] ([wrapError]: a message and the wrapped
    error) and of package context ([deadlineExceededError]; the error
    [context.Canceled] is an [errorString]). *)

Inductive error : Type :=
  | Nil
  | errorString (s : string)
  | wrapError (msg : string) (err : error)
  | deadlineExceededError.

(** [err != nil] *)
Definition non_nil (err : error) : bool :=
  match err with
  | Nil => false
  | _ => true
  end.

(** The method [Error()]; it is not called on [nil]. *)
Definition Error (e : error) : string :=
  match e with
  | Nil => EmptyString
  | errorString s => s
  | wrapError msg _ => msg
  | deadlineExceededError => "context deadline exceeded"%string
  end.

(** [errors.Unwrap] *)
Definition Unwrap (e : error) : error :=
  match e with
  | wrapError _ err => err
  | _ => Nil
  end.

(** [fmt.Errorf(prefix + "%w", err)]: an error whose message is the prefix
    followed by the message of [err] and which wraps [err]. With a [nil]
    operand [%w] has nothing to wrap: fmt prints [%!w(<nil>)] and returns a
    plain [errorString]. *)
Definition Errorf_w (prefix : string) (err : error) : error :=
  match err with
  | Nil => errorString (prefix ++ "%!w(<nil>)")%string
  | _ => wrapError (prefix ++ Error err)%string err
  end.

Definition DeadlineExceeded : error := deadlineExceededError.
Definition Canceled : error := errorString "context canceled"%string.

(** ** Contexts

    [sleep] is the only place where the retrier looks at its context: it
    receives from [ctx.Done()] in a [select] against a timer, and then calls
    [ctx.Err()]. Which of the two channels delivers first is decided outside
    the program, so a context is modelled by what it answers there:
    [Done ctx i dur] tells whether, in suspension number [i] of the run
    (counted from 0), the Done channel delivers before a timer of duration
    [dur] does, and [Err ctx] is what [ctx.Err()] returns after that. *)

Record Context : Type := mkContext {
  Done : nat -> Duration -> bool;
  Err : error
}.

(** [context.Background()]: its Done channel is nil, a receive from it
    never proceeds; its [Err()] is nil. *)
Definition Background : Context :=
  {| Done := fun _ _ => false; Err := Nil |}.

(** A token that never fires. *)
Definition never_fires (ctx : Context) : Prop :=
  forall i dur, Done ctx i dur = false.

(** The case of [sleep]'s [select] that runs. *)
Inductive SelectCase : Type := CaseTimer | CaseDone.

(** ** The retrier *)

Record Retrier : Type := mkRetrier {
  max : Z;
  delayf : Z -> Duration
}.

Definition NewRetrier (max : Z) (delayf : Z -> Duration) : Retrier :=
  {| max := max; delayf := delayf |}.

(** What a run does, in order: the invocations of the work function with
    what they returned, the calls of the delay function, and the
    suspensions with their duration and the way they ended. *)
Inductive Event : Type :=
  | EvWork (err : error) (ret : bool)
  | EvDelayf (retries : Z)
  | EvSleep (dur : Duration) (c : SelectCase).

Fixpoint suspensions (tr : list Event) : list Duration :=
  match tr with
  | [] => []
  | EvSleep dur _ :: tr' => dur :: suspensions tr'
  | _ :: tr' => suspensions tr'
  end.

Fixpoint invocations (tr : list Event) : nat :=
  match tr with
  | [] => O
  | EvWork _ _ :: tr' => S (invocations tr')
  | _ :: tr' => invocations tr'
  end.

Fixpoint delayf_calls (tr : list Event) : list Z :=
  match tr with
  | [] => []
  | EvDelayf retries :: tr' => retries :: delayf_calls tr'
  | _ :: tr' => delayf_calls tr'
  end.

(** The run was cut short by its context in some suspension. *)
Definition cancelled (tr : list Event) : Prop :=
  exists dur, In (EvSleep dur CaseDone) tr.

Section Executor.

(** The state the work function closes over (and whatever else it can
    reach): the work function reads and updates it at every invocation. *)
Variable W : Type.

(** [func(ctx context.Context) (error, bool)] and [func() (error, bool)] *)
Definition WorkCtx : Type := Context -> W -> (error * bool) * W.
Definition Work : Type := W -> (error * bool) * W.

Record State : Type := mkState {
  world : W;
  trace : list Event
}.

Definition log (ev : Event) (st : State) : State :=
  {| world := world st; trace := trace st ++ [ev] |}.

(** [err, ret := work(ctx)] *)
Definition call_work (work : WorkCtx) (ctx : Context) (st : State)
  : (error * bool) * State :=
  let '((err, ret), w') := work ctx (world st) in
  ((err, ret), log (EvWork err ret) {| world := w'; trace := trace st |}).

(** [r.delayf(retries)] *)
Definition call_delayf (r : Retrier) (retries : Z) (st : State)
  : Duration * State :=
  (delayf r retries, log (EvDelayf retries) st).

(** sleep stops the execution for some duration, or until the context has
    been canceled:
    [t := time.After(dur); select { case <-t: return nil;
                                    case <-ctx.Done(): return ctx.Err() }].
    The suspensions of a run are numbered in the order in which they
    happen: this one has as its number the count of those before it. *)
Definition sleep (r : Retrier) (ctx : Context) (dur : Duration) (st : State)
  : error * State :=
  let i := List.length (suspensions (trace st)) in
  if Done ctx i dur
  then (Err ctx, log (EvSleep dur CaseDone) st)
  else (Nil, log (EvSleep dur CaseTimer) st).

(** One pass through the body of the [for] loop: it returns from the
    function, or goes on to the next iteration. *)
Inductive Flow : Type :=
  | Return (err : error)
  | Next.

Definition body (r : Retrier) (ctx : Context) (work : WorkCtx)
    (retries : Z) (st : State) : Flow * State :=
  let '((err, ret), st1) := call_work work ctx st in
  if negb ret then
    (Return err, st1)
  else if negb (max r =? -1) && (retries >=? max r) then
    (Return (Errorf_w "failed after max retries: "%string err), st1)
  else
    let '(dur, st2) := call_delayf r retries st1 in
    let '(err', st3) := sleep r ctx dur st2 in
    if non_nil err' then (Return err', st3) else (Next, st3).

(** The loop of RunCtx, [retries++] included. The loop has no bound of
    its own: [fuel] bounds the number of iterations that are run, and
    [None] says that it did not suffice. *)
Fixpoint RunCtx_loop (fuel : nat) (r : Retrier) (ctx : Context)
    (work : WorkCtx) (retries : Z) (st : State) : option (error * State) :=
  match fuel with
  | O => None
  | S fuel' =>
      match body r ctx work retries st with
      | (Return err, st') => Some (err, st')
      | (Next, st') =>
          RunCtx_loop fuel' r ctx work (Int64.add retries 1) st'
      end
  end.

(** RunCtx executes a work task in the context of a retrier until the task
    decides not to retry, or if the maximum retries have been reached, or
    if the context has been canceled and retrying should stop. *)
Definition RunCtx (fuel : nat) (r : Retrier) (ctx : Context)
    (work : WorkCtx) (w : W) : option (error * State) :=
  RunCtx_loop fuel r ctx work 0 {| world := w; trace := [] |}.

(** Run executes a work task with the background context. *)
Definition Run (fuel : nat) (r : Retrier) (work : Work) (w : W)
  : option (error * State) :=
  RunCtx fuel r Background (fun ctx => work) w.

(** Run as the specification describes it, for a caller that has no token:
    invoke the work function; if it does not ask for a retry, return its
    error; if a limit is set and the counter has reached it, return the
    wrapped error; otherwise suspend for the delay of the current counter,
    increment the counter and start over. Nothing can cut a suspension
    short, so every suspension lasts its whole delay. *)
Fixpoint RunWithoutCancellation (fuel : nat) (r : Retrier) (work : Work)
    (retries : Z) (st : State) : option (error * State) :=
  match fuel with
  | O => None
  | S fuel' =>
      let '((err, ret), w') := work (world st) in
      let st1 := {| world := w'; trace := trace st ++ [EvWork err ret] |} in
      if negb ret then Some (err, st1)
      else if negb (max r =? -1) && (retries >=? max r) then
        Some (Errorf_w "failed after max retries: "%string err, st1)
      else
        let dur := delayf r retries in
        RunWithoutCancellation fuel' r work (Int64.add retries 1)
          (log (EvSleep dur CaseTimer) (log (EvDelayf retries) st1))
  end.

(** The state of the work function after [i] invocations, and what
    invocation number [i] (counted from 0) returns. *)
Fixpoint state_after (work : WorkCtx) (ctx : Context) (w : W) (i : nat) : W :=
  match i with
  | O => w
  | S j => state_after work ctx (snd (work ctx w)) j
  end.

Definition outcome (work : WorkCtx) (ctx : Context) (w : W) (i : nat)
  : error * bool :=
  fst (work ctx (state_after work ctx w i)).

End Executor.

Arguments world {W} _.
Arguments trace {W} _.
Arguments mkState {W} _ _.
Arguments log {W} _ _.
Arguments call_work {W} _ _ _.
Arguments call_delayf {W} _ _ _.
Arguments sleep {W} _ _ _ _.
Arguments body {W} _ _ _ _ _.
Arguments RunCtx_loop {W} _ _ _ _ _ _.
Arguments RunCtx {W} _ _ _ _ _.
Arguments Run {W} _ _ _ _.
Arguments RunWithoutCancellation {W} _ _ _ _ _.
Arguments state_after {W} _ _ _ _.
Arguments outcome {W} _ _ _ _.

(** The value of the counter [retries] after [j] executions of
    [retries++], starting from [retries]. *)
Fixpoint retries_from (retries : Z) (j : nat) : Z :=
  match j with
  | O => retries
  | S j' => retries_from (Int64.add retries 1) j'
  end.

Definition retries_after (j : nat) : Z := retries_from 0 j.

(** The test [r.max != -1 && retries >= r.max] of the loop. *)
Definition budget_reached (r : Retrier) (retries : Z) : bool :=
  negb (max r =? -1) && (retries >=? max r).

(** The message that RunCtx puts in front of the last error of the work
    function when it gives up. *)
Definition max_retries_prefix : string := "failed after max retries: "%string.

(** ** Sample runs

    The retriers, contexts and work functions of the package's tests. *)

(** [NewRetrier(5, ConstantDelay(time.Millisecond * 5))] *)
Definition retrier_5 : Retrier := NewRetrier 5 (ConstantDelay (5 * Millisecond)).

(** The same without a limit. *)
Definition retrier_unlimited : Retrier :=
  NewRetrier (-1) (ConstantDelay (5 * Millisecond)).

(** A context whose deadline passes during the second suspension. *)
Definition deadline_ctx : Context :=
  mkContext (fun i _ => (1 <=? i)%nat) DeadlineExceeded.

(** "Task succeeds after some tries": the task counts its invocations and
    fails until the count is 3. *)
Definition counting_task : WorkCtx nat :=
  fun ctx v =>
    if (v <? 3)%nat
    then ((errorString "count too small", true), S v)
    else ((Nil, false), v).

(** "Task fatally fails" *)
Definition fatal_task : WorkCtx unit :=
  fun ctx w => ((errorString "fatal error", false), w).

(** "Task fails after max retries" *)
Definition failing_task : WorkCtx unit :=
  fun ctx w => ((errorString "error", true), w).

(** * Properties *)

(** ** 64-bit arithmetic *)

(** Goals and hypotheses about the range of an [int]: the bounds are
    unfolded and the rest is linear arithmetic. *)
Ltac int64_lia :=
  unfold Int64.in_range, Int64.min_int, Int64.max_int in *; lia.

Lemma Int64_wrap_in_range (z : Z) : Int64.in_range (Int64.wrap z).
Proof.
  unfold Int64.in_range, Int64.wrap, Int64.min_int, Int64.max_int.
  pose proof (Z.mod_pos_bound (z + 2 ^ 63) (2 ^ 64) ltac:(lia)). lia.
Qed.

Lemma Int64_wrap_small (z : Z) : Int64.in_range z -> Int64.wrap z = z.
Proof.
  unfold Int64.in_range, Int64.wrap, Int64.min_int, Int64.max_int. intros H.
  rewrite Z.mod_small by lia. lia.
Qed.

Lemma Int64_wrap_le (z : Z) : 0 <= z -> Int64.wrap z <= z.
Proof.
  intros H. unfold Int64.wrap.
  pose proof (Z.mod_le (z + 2 ^ 63) (2 ^ 64) ltac:(lia) ltac:(lia)). lia.
Qed.

Lemma Int64_wrap_eqm (z : Z) : Int64.wrap z mod 2 ^ 64 = z mod 2 ^ 64.
Proof.
  unfold Int64.wrap.
  rewrite <- Zminus_mod_idemp_l, Z.mod_mod by lia.
  rewrite Zminus_mod_idemp_l. f_equal. lia.
Qed.

Lemma Int64_wrap_congr (a b : Z) : a mod 2 ^ 64 = b mod 2 ^ 64 -> Int64.wrap a = Int64.wrap b.
Proof.
  intros H. unfold Int64.wrap.
  rewrite <- (Zplus_mod_idemp_l a), <- (Zplus_mod_idemp_l b), H.
  reflexivity.
Qed.

Lemma Int64_wrap_mul_l (a b : Z) : Int64.wrap (Int64.wrap a * b) = Int64.wrap (a * b).
Proof.
  apply Int64_wrap_congr.
  rewrite <- Zmult_mod_idemp_l, Int64_wrap_eqm, Zmult_mod_idemp_l. reflexivity.
Qed.

Lemma Int64_wrap_add_r (a b : Z) : Int64.wrap (a + Int64.wrap b) = Int64.wrap (a + b).
Proof.
  apply Int64_wrap_congr.
  rewrite <- Zplus_mod_idemp_r, Int64_wrap_eqm, Zplus_mod_idemp_r. reflexivity.
Qed.


(** ** Properties of the delay functions *)

Example NoDelay_25 : NoDelay 25 = 0.
Proof. reflexivity. Qed.

(** What ConstantDelay computes: its argument scaled by [time.Millisecond],
    in 64 bits, whatever the retry count. *)
Lemma ConstantDelay_scaled (d n : Z) :
  ConstantDelay d n = Int64.wrap (d * 1000000).
Proof. reflexivity. Qed.

(** The only durations ConstantDelay hands back unchanged, among those
    whose scaling does not overflow, is zero. *)
Lemma ConstantDelay_fixed_point (d n : Z) :
  Int64.in_range (d * 1000000) -> ConstantDelay d n = d -> d = 0.
Proof.
  intros Hr. rewrite ConstantDelay_scaled, Int64_wrap_small by assumption.
  lia.
Qed.

(** LinearDelay, up to the 64-bit wrap-around: the two roundings of the
    code amount to one. *)
Lemma LinearDelay_wrap (step n : Z) :
  LinearDelay step n = Int64.wrap (step + n * step).
Proof. unfold LinearDelay, Int64.add, Int64.mul. apply Int64_wrap_add_r. Qed.

Example LinearDelay_second_0 : LinearDelay Second 0 = Second.
Proof. reflexivity. Qed.

Example LinearDelay_second_1 : LinearDelay Second 1 = 2 * Second.
Proof. reflexivity. Qed.

Example LinearDelay_second_25 : LinearDelay Second 25 = 26 * Second.
Proof. reflexivity. Qed.

Example CappedLinearDelay_second_25 :
  CappedLinearDelay Second (10 * Second) 25 = 10 * Second.
Proof. reflexivity. Qed.

(** ExponentialDelay, up to the 64-bit wrap-around. *)
Lemma ExponentialDelay_wrap (intPow : Z -> Z -> Z) (coef base n : Z) :
  ExponentialDelay intPow coef base n
  = Int64.wrap (coef * intPow base n * 1000000).
Proof. unfold ExponentialDelay, Int64.mul. apply Int64_wrap_mul_l. Qed.

(** C2 (ConstantDelay(d) applied to any index returns exactly d): the code
    does not do this. At d = 1s (10^9 ns) and index 0 the function returns
    10^15 ns, that is 10^6 s, because the duration is multiplied by
    [time.Millisecond] once more. *)
Theorem ConstantDelay_one_second :
  ConstantDelay Second 0 = 1000000 * Second /\ ConstantDelay Second 0 <> Second.
Proof. split; [reflexivity | discriminate]. Qed.

(** C7, as stated (ExponentialDelay(base, k) at index n returns exactly
    base * k^n, for every base, k and n >= 0), fails at coef = 1, k = 2,
    n = 44: 2^44 ms is more than a 64-bit duration holds, so whatever
    [math.Pow] returns there the result is not 2^44 ms. With [math.Pow]
    exact there (2^44 is a power of two) the result is
    -854558029293551616 ns, which is not 2^44 ns either, the reading in
    which the first argument is a duration in Go's own unit. *)
Lemma ExponentialDelay_overflows :
  ~ (exists intPow : Z -> Z -> Z,
        ExponentialDelay intPow 1 2 44 = 1 * 2 ^ 44 * Millisecond)
  /\ ExponentialDelay Z.pow 1 2 44 = -854558029293551616
  /\ ExponentialDelay Z.pow 1 2 44 <> 1 * 2 ^ 44.
Proof.
  split; [| split; [reflexivity | discriminate]].
  intros [p Hp].
  pose proof (Int64_wrap_in_range (1 * p 2 44 * 1000000)) as Hr.
  rewrite <- ExponentialDelay_wrap, Hp in Hr.
  unfold Int64.in_range, Int64.min_int, Int64.max_int, Millisecond,
    Microsecond, Nanosecond in Hr.
  lia.
Qed.

(** C7, amended: the first argument is an integer count of milliseconds,
    and the power comes from [math.Pow] on [float64]. For every coef, k and
    n >= 0 at which [math.Pow] yields k^n exactly and coef * k^n
    milliseconds fits a 64-bit duration, ExponentialDelay(coef, k) applied
    to n returns exactly coef * k^n milliseconds. *)
Theorem ExponentialDelay_exact (intPow : Z -> Z -> Z) (coef base n : Z) :
  0 <= n ->
  intPow base n = base ^ n ->
  Int64.in_range (coef * base ^ n * Millisecond) ->
  ExponentialDelay intPow coef base n = coef * base ^ n * Millisecond.
Proof.
  intros _ Hpow Hr.
  rewrite ExponentialDelay_wrap, Hpow.
  apply Int64_wrap_small. exact Hr.
Qed.

(** One second doubling 25 times: 33554432 s. *)
Lemma ExponentialDelay_exact_witness :
  ExponentialDelay Z.pow 1000 2 25 = 33554432 * Second.
Proof.
  change (33554432 * Second) with (1000 * 2 ^ 25 * Millisecond).
  apply (ExponentialDelay_exact Z.pow 1000 2 25).
  - lia.
  - reflexivity.
  - unfold Int64.in_range, Int64.min_int, Int64.max_int. vm_compute.
    split; discriminate.
Defined.

(** C8, as stated (LinearDelay(step) at index n returns exactly
    step + n*step, for every step and n >= 0), fails at step = 2^62 ns and
    n = 1: the sum is 2^63 ns, one more than a 64-bit duration holds, and
    the function returns -2^63 ns. *)
Lemma LinearDelay_overflows :
  LinearDelay (2 ^ 62) 1 = - 2 ^ 63
  /\ LinearDelay (2 ^ 62) 1 <> 2 ^ 62 + 1 * 2 ^ 62.
Proof. split; [reflexivity | discriminate]. Qed.

(** C8, amended: for every step and every index n >= 0 such that
    step + n*step fits a 64-bit duration, LinearDelay(step) applied to n
    returns exactly step + n*step. *)
Theorem LinearDelay_exact (step n : Z) :
  0 <= n ->
  Int64.in_range (step + n * step) ->
  LinearDelay step n = step + n * step.
Proof.
  intros _ Hr. rewrite LinearDelay_wrap. apply Int64_wrap_small. exact Hr.
Qed.

Lemma LinearDelay_exact_witness : LinearDelay Second 25 = 26 * Second.
Proof.
  change (26 * Second) with (Second + 25 * Second).
  apply (LinearDelay_exact Second 25).
  - lia.
  - unfold Int64.in_range, Int64.min_int, Int64.max_int. vm_compute.
    split; discriminate.
Defined.

(** ** Traces *)

Lemma suspensions_app (a b : list Event) :
  suspensions (a ++ b) = suspensions a ++ suspensions b.
Proof.
  induction a as [|ev a IH]; [reflexivity|].
  destruct ev; simpl; rewrite IH; reflexivity.
Qed.

Lemma invocations_app (a b : list Event) :
  invocations (a ++ b) = (invocations a + invocations b)%nat.
Proof.
  induction a as [|ev a IH]; [reflexivity|].
  destruct ev; simpl; rewrite IH; reflexivity.
Qed.

Lemma delayf_calls_app (a b : list Event) :
  delayf_calls (a ++ b) = delayf_calls a ++ delayf_calls b.
Proof.
  induction a as [|ev a IH]; [reflexivity|].
  destruct ev; simpl; rewrite IH; reflexivity.
Qed.

Lemma cancelled_app (a b : list Event) :
  cancelled (a ++ b) <-> cancelled a \/ cancelled b.
Proof.
  unfold cancelled. split.
  - intros [d Hd]. apply in_app_or in Hd. destruct Hd; [left | right]; eauto.
  - intros [[d Hd] | [d Hd]]; exists d; apply in_or_app; auto.
Qed.

(** ** The counter of retries *)

Lemma retries_from_S (retries : Z) (j : nat) :
  retries_from retries (S j) = Int64.add (retries_from retries j) 1.
Proof.
  revert retries. induction j as [|j IH]; intros retries; [reflexivity|].
  change (retries_from retries (S (S j)))
    with (retries_from (Int64.add retries 1) (S j)).
  rewrite IH. reflexivity.
Qed.

(** As long as the count fits an [int] the counter is the count. *)
Lemma retries_after_small (j : nat) :
  Z.of_nat j <= Int64.max_int -> retries_after j = Z.of_nat j.
Proof.
  unfold retries_after. induction j as [|j IH]; intros Hj; [reflexivity|].
  rewrite retries_from_S, IH by lia.
  unfold Int64.add. rewrite Int64_wrap_small; [lia | int64_lia].
Qed.

Lemma retries_after_in_range (j : nat) : Int64.in_range (retries_after j).
Proof.
  unfold retries_after. destruct j as [|j].
  - simpl. int64_lia.
  - rewrite retries_from_S. apply Int64_wrap_in_range.
Qed.

(** The counter never runs ahead of the count. *)
Lemma retries_after_le (j : nat) : retries_after j <= Z.of_nat j.
Proof.
  induction j as [|j IH]; [unfold retries_after; simpl; lia|].
  unfold retries_after in *. rewrite retries_from_S. unfold Int64.add.
  pose proof (retries_after_in_range j) as Hr. unfold retries_after in Hr.
  destruct (Z_le_gt_dec 0 (retries_from 0 j + 1)) as [Hpos | Hneg].
  - pose proof (Int64_wrap_le _ Hpos). lia.
  - rewrite Int64_wrap_small; [lia | int64_lia].
Qed.

Lemma budget_not_reached_unlimited (r : Retrier) (retries : Z) :
  max r = -1 -> budget_reached r retries = false.
Proof. intros H. unfold budget_reached. rewrite H. reflexivity. Qed.

Lemma budget_not_reached_below (r : Retrier) (retries : Z) :
  retries < max r -> budget_reached r retries = false.
Proof.
  intros H. unfold budget_reached.
  rewrite Z.geb_leb. rewrite (proj2 (Z.leb_gt (max r) retries) H).
  apply andb_false_r.
Qed.

Lemma budget_reached_at (r : Retrier) (retries : Z) :
  max r <> -1 -> max r <= retries -> budget_reached r retries = true.
Proof.
  intros Hm H. unfold budget_reached.
  rewrite (proj2 (Z.eqb_neq (max r) (-1)) Hm), Z.geb_leb.
  rewrite (proj2 (Z.leb_le (max r) retries) H). reflexivity.
Qed.

(** ** One pass through the loop body *)

Section Body.

Context {W : Type}.
Variables (r : Retrier) (ctx : Context) (work : WorkCtx W).
Variables (retries : Z) (st : State W).

(** The work function does not ask for a retry: its error is returned. *)
Lemma body_no_retry (err : error) (w' : W) :
  work ctx (world st) = ((err, false), w') ->
  body r ctx work retries st
  = (Return err, mkState w' (trace st ++ [EvWork err false])).
Proof. intros Hw. unfold body, call_work. rewrite Hw. reflexivity. Qed.

(** The budget is used up: the last error is wrapped and returned. *)
Lemma body_budget (err : error) (w' : W) :
  work ctx (world st) = ((err, true), w') ->
  budget_reached r retries = true ->
  body r ctx work retries st
  = (Return (Errorf_w max_retries_prefix err),
     mkState w' (trace st ++ [EvWork err true])).
Proof.
  intros Hw Hb. unfold body, call_work. rewrite Hw. simpl.
  unfold budget_reached in Hb. rewrite Hb. reflexivity.
Qed.

(** A retry whose delay elapses. *)
Lemma body_timer (err : error) (w' : W) :
  work ctx (world st) = ((err, true), w') ->
  budget_reached r retries = false ->
  Done ctx (List.length (suspensions (trace st))) (delayf r retries) = false ->
  body r ctx work retries st
  = (Next,
     mkState w' (trace st ++ [EvWork err true; EvDelayf retries;
                              EvSleep (delayf r retries) CaseTimer])).
Proof.
  intros Hw Hb Hd. unfold body, call_work. rewrite Hw. simpl.
  unfold budget_reached in Hb. rewrite Hb.
  unfold call_delayf, sleep, log. simpl.
  rewrite !suspensions_app. simpl. rewrite !app_nil_r, Hd. simpl.
  rewrite <- !app_assoc. reflexivity.
Qed.

(** A retry whose suspension is ended by the context. *)
Lemma body_done (err : error) (w' : W) :
  work ctx (world st) = ((err, true), w') ->
  budget_reached r retries = false ->
  Done ctx (List.length (suspensions (trace st))) (delayf r retries) = true ->
  non_nil (Err ctx) = true ->
  body r ctx work retries st
  = (Return (Err ctx),
     mkState w' (trace st ++ [EvWork err true; EvDelayf retries;
                              EvSleep (delayf r retries) CaseDone])).
Proof.
  intros Hw Hb Hd Hn. unfold body, call_work. rewrite Hw. simpl.
  unfold budget_reached in Hb. rewrite Hb.
  unfold call_delayf, sleep, log. simpl.
  rewrite !suspensions_app. simpl. rewrite !app_nil_r, Hd, Hn. simpl.
  rewrite <- !app_assoc. reflexivity.
Qed.

End Body.

(** ** The loop *)

Section Loop.

Context {W : Type}.
Variables (r : Retrier) (ctx : Context) (work : WorkCtx W).

Lemma RunCtx_loop_S (fuel : nat) (retries : Z) (st : State W) :
  RunCtx_loop (S fuel) r ctx work retries st
  = match body r ctx work retries st with
    | (Return err, st') => Some (err, st')
    | (Next, st') => RunCtx_loop fuel r ctx work (Int64.add retries 1) st'
    end.
Proof. reflexivity. Qed.

(** [n] retries in a row: the work function asks for a retry [n] times,
    the budget allows each of them and each delay elapses. The loop is then
    where it would be had it started from the counter and the state
    reached, and the trace has grown by [n] invocations and the [n]
    suspensions that the delay function prescribes. *)
Lemma RunCtx_loop_rounds (n : nat) :
  forall (retries : Z) (st : State W) (fuel : nat),
    (forall j, (j < n)%nat -> snd (outcome work ctx (world st) j) = true) ->
    (forall j, (j < n)%nat ->
               budget_reached r (retries_from retries j) = false) ->
    (forall j, (j < n)%nat ->
               Done ctx (List.length (suspensions (trace st)) + j)
                    (delayf r (retries_from retries j)) = false) ->
    exists st' : State W,
      RunCtx_loop (n + fuel) r ctx work retries st
      = RunCtx_loop fuel r ctx work (retries_from retries n) st'
      /\ world st' = state_after work ctx (world st) n
      /\ suspensions (trace st')
         = suspensions (trace st)
           ++ map (fun j => delayf r (retries_from retries j)) (seq 0 n)
      /\ invocations (trace st') = (invocations (trace st) + n)%nat
      /\ (cancelled (trace st') -> cancelled (trace st)).
Proof.
  induction n as [|n IH]; intros retries st fuel Hret Hbud Hdone.
  - exists st. simpl. rewrite app_nil_r, Nat.add_0_r. auto.
  - destruct (work ctx (world st)) as [[err ret] w'] eqn:Hw.
    assert (ret = true) as ->.
    { specialize (Hret O ltac:(lia)). unfold outcome in Hret. simpl in Hret.
      rewrite Hw in Hret. exact Hret. }
    assert (body r ctx work retries st
            = (Next, mkState w' (trace st ++ [EvWork err true; EvDelayf retries;
                                   EvSleep (delayf r retries) CaseTimer])))
      as Hb.
    { apply body_timer; [exact Hw | apply (Hbud O); lia |].
      specialize (Hdone O ltac:(lia)). rewrite Nat.add_0_r in Hdone.
      exact Hdone. }
    destruct (IH (Int64.add retries 1)
                 (mkState w' (trace st ++ [EvWork err true; EvDelayf retries;
                                EvSleep (delayf r retries) CaseTimer])) fuel)
      as [st' (Hrun & Hworld & Hsusp & Hinv & Hc)];
      [ intros j Hj | intros j Hj | intros j Hj | ].
    + specialize (Hret (S j) ltac:(lia)). unfold outcome in *.
      simpl in *. rewrite Hw in Hret. exact Hret.
    + apply (Hbud (S j)). lia.
    + simpl. rewrite suspensions_app, length_app. simpl.
      replace (List.length (suspensions (trace st)) + 1 + j)%nat
        with (List.length (suspensions (trace st)) + S j)%nat by lia.
      apply (Hdone (S j)). lia.
    + exists st'. simpl in *. repeat split.
      * rewrite Hb. exact Hrun.
      * rewrite Hworld, Hw. reflexivity.
      * rewrite Hsusp, suspensions_app. simpl. rewrite <- app_assoc. simpl.
        rewrite <- seq_shift, map_map. reflexivity.
      * rewrite Hinv, invocations_app. simpl. lia.
      * intros Hc'. apply Hc, cancelled_app in Hc'.
        destruct Hc' as [Hc' | [d Hd]]; [exact Hc'|].
        simpl in Hd. destruct Hd as [Hd | [Hd | [Hd | []]]]; discriminate.
Qed.

(** The ways through the loop body, read backwards. *)
Lemma body_inv (retries : Z) (st : State W) (fl : Flow) (st' : State W) :
  body r ctx work retries st = (fl, st') ->
  exists err ret w',
    work ctx (world st) = ((err, ret), w')
    /\ world st' = w'
    /\ ((ret = false /\ fl = Return err
         /\ trace st' = trace st ++ [EvWork err false])
        \/ (ret = true /\ budget_reached r retries = true
            /\ fl = Return (Errorf_w max_retries_prefix err)
            /\ trace st' = trace st ++ [EvWork err true])
        \/ (ret = true /\ budget_reached r retries = false
            /\ fl = Next
            /\ trace st' = trace st ++ [EvWork err true; EvDelayf retries;
                                        EvSleep (delayf r retries) CaseTimer])
        \/ (ret = true /\ budget_reached r retries = false
            /\ fl = (if non_nil (Err ctx) then Return (Err ctx) else Next)
            /\ trace st' = trace st ++ [EvWork err true; EvDelayf retries;
                                        EvSleep (delayf r retries) CaseDone])).
Proof.
  intros Hb.
  destruct (work ctx (world st)) as [[err ret] w'] eqn:Hw.
  exists err, ret, w'. split; [reflexivity|].
  unfold body, call_work in Hb. rewrite Hw in Hb.
  destruct ret; simpl in Hb.
  - change (negb (max r =? -1) && (retries >=? max r))
      with (budget_reached r retries) in Hb.
    destruct (budget_reached r retries) eqn:Hbud.
    + inversion Hb; subst. simpl. split; [reflexivity|]. right; left. auto.
    + unfold call_delayf, sleep, log in Hb. simpl in Hb.
      destruct (Done ctx _ _).
      * destruct (non_nil (Err ctx)); inversion Hb; subst; simpl;
          (split; [reflexivity|]); right; right; right;
          rewrite <- !app_assoc; auto.
      * simpl in Hb. inversion Hb; subst. simpl. split; [reflexivity|].
        right; right; left. rewrite <- !app_assoc. auto.
  - inversion Hb; subst. simpl. split; [reflexivity|]. left. auto.
Qed.

(** However the loop ends, the last thing that happened tells why: an
    invocation that did not ask for a retry, an invocation that found the
    budget used up, or a suspension that the context ended. *)
Lemma RunCtx_loop_ends (fuel : nat) :
  forall (retries : Z) (st : State W) (res : error) (st' : State W),
    RunCtx_loop fuel r ctx work retries st = Some (res, st') ->
    (exists tr, trace st' = tr ++ [EvWork res false])
    \/ (exists tr err retries',
           trace st' = tr ++ [EvWork err true]
           /\ res = Errorf_w max_retries_prefix err
           /\ budget_reached r retries' = true)
    \/ (exists tr dur,
           trace st' = tr ++ [EvSleep dur CaseDone]
           /\ res = Err ctx /\ res <> Nil).
Proof.
  induction fuel as [|fuel IH]; intros retries st res st' Hrun;
    [discriminate|].
  rewrite RunCtx_loop_S in Hrun.
  destruct (body r ctx work retries st) as [fl st1] eqn:Hb.
  apply body_inv in Hb.
  destruct Hb as (err & ret & w' & _ & _ & Hcases).
  destruct Hcases as [(-> & -> & Htr) | [(-> & Hbud & -> & Htr)
                     | [(-> & Hbud & -> & Htr) | (-> & Hbud & -> & Htr)]]].
  - inversion Hrun; subst. left. eauto.
  - inversion Hrun; subst. right; left. eauto 6.
  - eapply IH; eassumption.
  - destruct (non_nil (Err ctx)) eqn:Hn.
    + inversion Hrun; subst. right; right.
      exists (trace st ++ [EvWork err true; EvDelayf retries]),
        (delayf r retries).
      rewrite <- app_assoc. simpl. repeat split; [exact Htr|].
      intros Hnil. rewrite Hnil in Hn. discriminate.
    + eapply IH; eassumption.
Qed.

End Loop.

Lemma state_after_S {W : Type} (work : WorkCtx W) (ctx : Context) (w : W)
    (i : nat) :
  state_after work ctx w (S i)
  = snd (work ctx (state_after work ctx w i)).
Proof.
  revert w. induction i as [|i IH]; intros w; [reflexivity|].
  change (state_after work ctx w (S (S i)))
    with (state_after work ctx (snd (work ctx w)) (S i)).
  rewrite IH. reflexivity.
Qed.

(** A limit of -1, or one that is not below [n], allows the first [n]
    retries. *)
Lemma budget_allows (r : Retrier) (n : nat) :
  max r = -1 \/ Z.of_nat n <= max r ->
  forall j, (j < n)%nat -> budget_reached r (retries_after j) = false.
Proof.
  intros Hbudget j Hj. pose proof (retries_after_le j).
  destruct Hbudget as [Hu | Hb].
  - apply budget_not_reached_unlimited. exact Hu.
  - apply budget_not_reached_below. lia.
Qed.

(** A run that starts with [n] retries whose delays elapse and has fuel
    for more: it comes to its invocation number [n] with the counter at
    [retries_after n], after [n] invocations and [n] suspensions. *)
Lemma RunCtx_rounds {W : Type} (r : Retrier) (ctx : Context)
    (work : WorkCtx W) (w : W) (n fuel : nat) :
  (n < fuel)%nat ->
  (forall j, (j < n)%nat -> snd (outcome work ctx w j) = true) ->
  (forall j, (j < n)%nat -> budget_reached r (retries_after j) = false) ->
  (forall j, (j < n)%nat ->
             Done ctx j (delayf r (retries_after j)) = false) ->
  exists (st1 : State W) (fuel' : nat),
    RunCtx fuel r ctx work w
    = RunCtx_loop (S fuel') r ctx work (retries_after n) st1
    /\ world st1 = state_after work ctx w n
    /\ suspensions (trace st1)
       = map (fun j => delayf r (retries_after j)) (seq 0 n)
    /\ invocations (trace st1) = n.
Proof.
  intros Hfuel Hretry Hbud Hdone.
  destruct (RunCtx_loop_rounds r ctx work n 0 (mkState w []) (fuel - n))
    as [st1 (Hrun & Hworld & Hsusp & Hinv & _)]; try assumption.
  replace (n + (fuel - n))%nat with fuel in Hrun by lia.
  destruct (fuel - n)%nat as [|fuel'] eqn:Hf; [lia|].
  exists st1, fuel'. auto.
Qed.

(** ** Wrapped errors *)

Lemma Errorf_w_Unwrap (prefix : string) (err : error) :
  err <> Nil -> Unwrap (Errorf_w prefix err) = err.
Proof. destruct err; simpl; congruence. Qed.

Lemma Errorf_w_Error (prefix : string) (err : error) :
  err <> Nil -> Error (Errorf_w prefix err) = (prefix ++ Error err)%string.
Proof. destruct err; simpl; congruence. Qed.

(** ** RunCtx *)

(** C5: when the first invocation of the work function returns (err, false),
    err nil or not, RunCtx returns err as it is after that one invocation,
    whatever the retry limit and the context: nothing else happens, so there
    is no suspension and the delay function is not called. *)
Theorem RunCtx_no_retry {W : Type} (r : Retrier) (ctx : Context)
    (work : WorkCtx W) (w w' : W) (err : error) (fuel : nat) :
  work ctx w = ((err, false), w') ->
  RunCtx (S fuel) r ctx work w = Some (err, mkState w' [EvWork err false])
  /\ invocations [EvWork err false] = 1%nat
  /\ suspensions [EvWork err false] = []
  /\ delayf_calls [EvWork err false] = [].
Proof.
  intros Hw. split; [|auto].
  unfold RunCtx. rewrite RunCtx_loop_S.
  rewrite (body_no_retry r ctx work 0 (mkState w []) err w' Hw).
  reflexivity.
Qed.

Lemma RunCtx_no_retry_witness :
  RunCtx 1 retrier_5 Background fatal_task tt
  = Some (errorString "fatal error",
          mkState tt [EvWork (errorString "fatal error") false])
  /\ invocations [EvWork (errorString "fatal error") false] = 1%nat
  /\ suspensions [EvWork (errorString "fatal error") false] = []
  /\ delayf_calls [EvWork (errorString "fatal error") false] = [].
Proof.
  apply (RunCtx_no_retry retrier_5 Background fatal_task tt tt
           (errorString "fatal error") 0).
  reflexivity.
Defined.

(** C10: -1 is the only value of the limit that lifts it. With a limit
    below -1, a first invocation that returns (err, true) ends the run at
    once: RunCtx returns the error that wraps err after that one
    invocation, without a suspension. *)
Theorem RunCtx_limit_below_sentinel {W : Type} (r : Retrier) (ctx : Context)
    (work : WorkCtx W) (w w' : W) (err : error) (fuel : nat) :
  max r < -1 ->
  work ctx w = ((err, true), w') ->
  RunCtx (S fuel) r ctx work w
  = Some (Errorf_w max_retries_prefix err, mkState w' [EvWork err true])
  /\ (err <> Nil -> Unwrap (Errorf_w max_retries_prefix err) = err)
  /\ invocations [EvWork err true] = 1%nat
  /\ suspensions [EvWork err true] = [].
Proof.
  intros Hmax Hw. split; [|split; [apply Errorf_w_Unwrap | auto]].
  unfold RunCtx. rewrite RunCtx_loop_S.
  rewrite (body_budget r ctx work 0 (mkState w []) err w' Hw).
  - reflexivity.
  - apply budget_reached_at; lia.
Qed.

Lemma RunCtx_limit_below_sentinel_witness :
  RunCtx 1 (NewRetrier (-2) NoDelay) Background failing_task tt
  = Some (Errorf_w max_retries_prefix (errorString "error"),
          mkState tt [EvWork (errorString "error") true])
  /\ (errorString "error" <> Nil ->
      Unwrap (Errorf_w max_retries_prefix (errorString "error"))
      = errorString "error")
  /\ invocations [EvWork (errorString "error") true] = 1%nat
  /\ suspensions [EvWork (errorString "error") true] = [].
Proof.
  apply (RunCtx_limit_below_sentinel (NewRetrier (-2) NoDelay) Background
           failing_task tt tt (errorString "error") 0).
  - simpl. lia.
  - reflexivity.
Defined.

(** C4: the work function asks for a retry in each of its first k
    invocations and returns (nil, false) in the next one, k is within the
    budget (the limit is -1 or at least k) and the token never fires. Then
    RunCtx returns nil after k+1 invocations and exactly k suspensions,
    whose durations are those the delay function gives for the successive
    values of the counter: schedule(0), ..., schedule(k-1). *)
Theorem RunCtx_succeeds_after_retries {W : Type} (k : nat) (r : Retrier)
    (ctx : Context) (work : WorkCtx W) (w : W) (fuel : nat) :
  never_fires ctx ->
  max r = -1 \/ Z.of_nat k <= max r ->
  (forall j, (j < k)%nat -> snd (outcome work ctx w j) = true) ->
  outcome work ctx w k = (Nil, false) ->
  (k < fuel)%nat ->
  exists st' : State W,
    RunCtx fuel r ctx work w = Some (Nil, st')
    /\ suspensions (trace st')
       = map (fun j => delayf r (retries_after j)) (seq 0 k)
    /\ List.length (suspensions (trace st')) = k
    /\ invocations (trace st') = S k
    /\ (Z.of_nat k <= Int64.max_int ->
        suspensions (trace st')
        = map (fun j => delayf r (Z.of_nat j)) (seq 0 k)).
Proof.
  intros Hnever Hbudget Hretry Hlast Hfuel.
  destruct (RunCtx_rounds r ctx work w k fuel Hfuel Hretry)
    as (st1 & fuel' & Hrun & Hworld & Hsusp & Hinv).
  { apply budget_allows. exact Hbudget. }
  { intros j _. apply Hnever. }
  unfold outcome in Hlast. rewrite <- Hworld in Hlast.
  destruct (work ctx (world st1)) as [[e b] w'] eqn:Hw.
  simpl in Hlast. inversion Hlast; subst e b.
  rewrite RunCtx_loop_S, (body_no_retry r ctx work _ st1 Nil w' Hw) in Hrun.
  eexists. split; [exact Hrun|]. simpl.
  rewrite suspensions_app, invocations_app, Hsusp, Hinv. simpl.
  rewrite app_nil_r. repeat split.
  - rewrite length_map, length_seq. reflexivity.
  - lia.
  - intros Hk. apply map_ext_in. intros j Hj. apply in_seq in Hj.
    rewrite retries_after_small by lia. reflexivity.
Qed.

Lemma RunCtx_succeeds_after_retries_witness :
  exists st' : State nat,
    RunCtx 4 retrier_5 Background counting_task O = Some (Nil, st')
    /\ suspensions (trace st')
       = map (fun j => delayf retrier_5 (retries_after j)) (seq 0 3)
    /\ List.length (suspensions (trace st')) = 3%nat
    /\ invocations (trace st') = 4%nat
    /\ (Z.of_nat 3 <= Int64.max_int ->
        suspensions (trace st')
        = map (fun j => delayf retrier_5 (Z.of_nat j)) (seq 0 3)).
Proof.
  apply (RunCtx_succeeds_after_retries 3 retrier_5 Background counting_task
           O 4).
  - intros i dur. reflexivity.
  - right. simpl. lia.
  - intros j Hj. destruct j as [|[|[|j]]]; [reflexivity .. | lia].
  - reflexivity.
  - lia.
Defined.

(** C1, as stated, leaves the context out: with a limit of 1 and a work
    function that always returns ("error", true), a context whose deadline
    passes during the first suspension makes RunCtx return the deadline
    error after one invocation, not the error for the used-up budget after
    two. *)
Lemma RunCtx_deadline_before_budget :
  RunCtx 2 (NewRetrier 1 NoDelay) (mkContext (fun _ _ => true) DeadlineExceeded)
         (fun _ (w : unit) => ((errorString "error", true), w)) tt
  = Some (DeadlineExceeded,
          mkState tt [EvWork (errorString "error") true; EvDelayf 0;
                      EvSleep 0 CaseDone])
  /\ DeadlineExceeded
     <> Errorf_w max_retries_prefix (errorString "error").
Proof. split; [reflexivity | discriminate]. Qed.

(** C1, amended: for every limit m >= 0 and every work function that at
    every invocation returns a non-nil error with shouldRetry = true,
    provided the token does not fire during any of the m suspensions,
    RunCtx terminates and returns the error for the used-up budget: it
    wraps the error of the last invocation, which Unwrap gives back, under
    a message that starts with "failed after max retries: ". This happens
    after exactly m suspensions and m+1 invocations. *)
Theorem RunCtx_budget_exhausted {W : Type} (r : Retrier) (ctx : Context)
    (work : WorkCtx W) (w : W) (fuel : nat) :
  0 <= max r <= Int64.max_int ->
  (forall j, exists err, outcome work ctx w j = (err, true) /\ err <> Nil) ->
  (forall j, (j < Z.to_nat (max r))%nat ->
             Done ctx j (delayf r (Z.of_nat j)) = false) ->
  (Z.to_nat (max r) < fuel)%nat ->
  exists (err : error) (st' : State W),
    RunCtx fuel r ctx work w = Some (Errorf_w max_retries_prefix err, st')
    /\ outcome work ctx w (Z.to_nat (max r)) = (err, true)
    /\ err <> Nil
    /\ Unwrap (Errorf_w max_retries_prefix err) = err
    /\ Error (Errorf_w max_retries_prefix err)
       = (max_retries_prefix ++ Error err)%string
    /\ List.length (suspensions (trace st')) = Z.to_nat (max r)
    /\ suspensions (trace st')
       = map (fun j => delayf r (Z.of_nat j)) (seq 0 (Z.to_nat (max r)))
    /\ invocations (trace st') = S (Z.to_nat (max r)).
Proof.
  intros Hmax Hwork Hdone Hfuel.
  set (m := Z.to_nat (max r)) in *.
  assert (forall j, (j <= m)%nat -> retries_after j = Z.of_nat j) as Hcount.
  { intros j Hj. apply retries_after_small. lia. }
  destruct (RunCtx_rounds r ctx work w m fuel Hfuel)
    as (st1 & fuel' & Hrun & Hworld & Hsusp & Hinv).
  { intros j _. destruct (Hwork j) as (e & He & _). rewrite He. reflexivity. }
  { apply budget_allows. right. lia. }
  { intros j Hj. rewrite Hcount by lia. apply Hdone. exact Hj. }
  destruct (Hwork m) as (err & Hout & Hnn).
  assert (Hout' := Hout). unfold outcome in Hout'. rewrite <- Hworld in Hout'.
  destruct (work ctx (world st1)) as [[e b] w2] eqn:Hw.
  simpl in Hout'. inversion Hout'; subst e b.
  rewrite RunCtx_loop_S, (body_budget r ctx work _ st1 err w2 Hw) in Hrun.
  2:{ apply budget_reached_at; [lia|]. rewrite Hcount by lia. lia. }
  exists err. eexists. split; [exact Hrun|]. simpl.
  rewrite suspensions_app, invocations_app, Hsusp, Hinv. simpl.
  rewrite app_nil_r.
  assert (map (fun j => delayf r (retries_after j)) (seq 0 m)
          = map (fun j => delayf r (Z.of_nat j)) (seq 0 m)) as Heq.
  { apply map_ext_in. intros j Hj. apply in_seq in Hj.
    rewrite Hcount by lia. reflexivity. }
  rewrite Heq. repeat split.
  - exact Hout.
  - exact Hnn.
  - apply Errorf_w_Unwrap. exact Hnn.
  - apply Errorf_w_Error. exact Hnn.
  - rewrite length_map, length_seq. reflexivity.
  - lia.
Qed.

Lemma RunCtx_budget_exhausted_witness :
  exists (err : error) (st' : State unit),
    RunCtx 6 retrier_5 Background failing_task tt
    = Some (Errorf_w max_retries_prefix err, st')
    /\ outcome failing_task Background tt (Z.to_nat (max retrier_5))
       = (err, true)
    /\ err <> Nil
    /\ Unwrap (Errorf_w max_retries_prefix err) = err
    /\ Error (Errorf_w max_retries_prefix err)
       = (max_retries_prefix ++ Error err)%string
    /\ List.length (suspensions (trace st')) = Z.to_nat (max retrier_5)
    /\ suspensions (trace st')
       = map (fun j => delayf retrier_5 (Z.of_nat j))
             (seq 0 (Z.to_nat (max retrier_5)))
    /\ invocations (trace st') = S (Z.to_nat (max retrier_5)).
Proof.
  apply (RunCtx_budget_exhausted retrier_5 Background failing_task tt 6).
  - unfold Int64.max_int. simpl. lia.
  - intros j. exists (errorString "error").
    split; [| discriminate].
    unfold outcome. induction j as [|j IH]; [reflexivity | exact IH].
  - intros j Hj. reflexivity.
  - simpl. lia.
Defined.

(** C3: the run reaches its suspension number i (the work function asked
    for a retry in each of its first i+1 invocations, the budget allowed
    each of these retries and the earlier suspensions lasted their whole
    delay) and the token fires during that suspension, before its delay
    elapses. Then RunCtx returns the token's own error, and the work
    function is not invoked again: the cancelled suspension is the last
    thing that happens, after i+1 invocations in all. Retries that the
    budget would still allow are not made. *)
Theorem RunCtx_cancelled_while_suspended {W : Type} (i : nat) (r : Retrier)
    (ctx : Context) (work : WorkCtx W) (w : W) (fuel : nat) :
  (forall j, (j <= i)%nat -> snd (outcome work ctx w j) = true) ->
  max r = -1 \/ Z.of_nat i < max r ->
  (forall j, (j < i)%nat -> Done ctx j (delayf r (retries_after j)) = false) ->
  Done ctx i (delayf r (retries_after i)) = true ->
  Err ctx <> Nil ->
  (i < fuel)%nat ->
  exists (st' : State W) (tr : list Event),
    RunCtx fuel r ctx work w = Some (Err ctx, st')
    /\ trace st' = tr ++ [EvSleep (delayf r (retries_after i)) CaseDone]
    /\ invocations (trace st') = S i
    /\ world st' = state_after work ctx w (S i).
Proof.
  intros Hretry Hbudget Htimer Hfires Herr Hfuel.
  assert (forall j, (j < S i)%nat -> budget_reached r (retries_after j) = false)
    as Hbud.
  { apply budget_allows. destruct Hbudget; [left | right]; lia. }
  destruct (RunCtx_rounds r ctx work w i fuel Hfuel)
    as (st1 & fuel' & Hrun & Hworld & Hsusp & Hinv).
  { intros j Hj. apply Hretry. lia. }
  { intros j Hj. apply Hbud. lia. }
  { exact Htimer. }
  specialize (Hretry i (le_n i)). unfold outcome in Hretry.
  rewrite <- Hworld in Hretry.
  destruct (work ctx (world st1)) as [[err ret] w'] eqn:Hw.
  simpl in Hretry. subst ret.
  rewrite RunCtx_loop_S,
    (body_done r ctx work _ st1 err w' Hw (Hbud i (Nat.lt_succ_diag_r i)))
    in Hrun.
  - eexists.
    exists (trace st1 ++ [EvWork err true; EvDelayf (retries_after i)]).
    split; [exact Hrun|]. cbn [trace world]. repeat split.
    + rewrite <- app_assoc. reflexivity.
    + rewrite invocations_app, Hinv. simpl. lia.
    + rewrite state_after_S, <- Hworld, Hw. reflexivity.
  - rewrite Hsusp, length_map, length_seq. exact Hfires.
  - destruct (Err ctx); [congruence | reflexivity ..].
Qed.

Lemma RunCtx_cancelled_while_suspended_witness :
  exists (st' : State unit) (tr : list Event),
    RunCtx 2 retrier_unlimited deadline_ctx failing_task tt
    = Some (Err deadline_ctx, st')
    /\ trace st'
       = tr ++ [EvSleep (delayf retrier_unlimited (retries_after 1)) CaseDone]
    /\ invocations (trace st') = 2%nat
    /\ world st' = state_after failing_task deadline_ctx tt 2.
Proof.
  apply (RunCtx_cancelled_while_suspended 1 retrier_unlimited deadline_ctx
           failing_task tt 2).
  - intros j Hj. reflexivity.
  - left. reflexivity.
  - intros j Hj. destruct j as [|j]; [reflexivity | lia].
  - reflexivity.
  - discriminate.
  - lia.
Defined.

(** C6: with the limit set to -1, a run of RunCtx that returns does so for
    one of two reasons only, however many retries it made: the work
    function returned its result with shouldRetry = false, and that result
    is what RunCtx returns, or the context ended a suspension, and RunCtx
    returns the context's error. The error for a used-up budget is never
    produced. *)
Theorem RunCtx_unlimited_outcomes {W : Type} (r : Retrier) (ctx : Context)
    (work : WorkCtx W) (w : W) (fuel : nat) (res : error) (st' : State W) :
  max r = -1 ->
  RunCtx fuel r ctx work w = Some (res, st') ->
  (exists tr, trace st' = tr ++ [EvWork res false])
  \/ (exists tr dur,
         trace st' = tr ++ [EvSleep dur CaseDone]
         /\ res = Err ctx /\ res <> Nil).
Proof.
  intros Hmax Hrun. unfold RunCtx in Hrun.
  apply RunCtx_loop_ends in Hrun.
  destruct Hrun as [Hw | [(tr & err & retries' & _ & _ & Hbud) | Hc]].
  - left. exact Hw.
  - rewrite budget_not_reached_unlimited in Hbud by exact Hmax.
    discriminate.
  - right. exact Hc.
Qed.

Lemma RunCtx_unlimited_outcomes_witness :
  (exists tr,
      [EvWork (errorString "error") true; EvDelayf 0;
       EvSleep (delayf retrier_unlimited 0) CaseTimer;
       EvWork (errorString "error") true; EvDelayf 1;
       EvSleep (delayf retrier_unlimited 1) CaseDone]
      = tr ++ [EvWork DeadlineExceeded false])
  \/ (exists tr dur,
         [EvWork (errorString "error") true; EvDelayf 0;
          EvSleep (delayf retrier_unlimited 0) CaseTimer;
          EvWork (errorString "error") true; EvDelayf 1;
          EvSleep (delayf retrier_unlimited 1) CaseDone]
         = tr ++ [EvSleep dur CaseDone]
         /\ DeadlineExceeded = Err deadline_ctx /\ DeadlineExceeded <> Nil).
Proof.
  apply (RunCtx_unlimited_outcomes retrier_unlimited deadline_ctx failing_task
           tt 2 DeadlineExceeded
           (mkState tt [EvWork (errorString "error") true; EvDelayf 0;
                        EvSleep (delayf retrier_unlimited 0) CaseTimer;
                        EvWork (errorString "error") true; EvDelayf 1;
                        EvSleep (delayf retrier_unlimited 1) CaseDone])).
  - reflexivity.
  - reflexivity.
Defined.

(** ** Run *)

(** With a token that never fires, the loop of RunCtx is the loop without
    a token. *)
Lemma RunCtx_loop_never_fires {W : Type} (r : Retrier) (ctx : Context)
    (work : Work W) (fuel : nat) :
  never_fires ctx ->
  forall (retries : Z) (st : State W),
    RunCtx_loop fuel r ctx (fun _ => work) retries st
    = RunWithoutCancellation fuel r work retries st.
Proof.
  intros Hnever. induction fuel as [|fuel IH]; intros retries st;
    [reflexivity|].
  rewrite RunCtx_loop_S. simpl. unfold body, call_work.
  destruct (work (world st)) as [[err ret] w'].
  destruct ret; simpl; [|reflexivity].
  destruct (negb (max r =? -1) && (retries >=? max r)); [reflexivity|].
  unfold call_delayf, sleep. rewrite Hnever. simpl. apply IH.
Qed.

(** A run without a token ends with an invocation of the work function,
    and no suspension in it is cut short. *)
Lemma RunWithoutCancellation_ends {W : Type} (r : Retrier) (work : Work W)
    (fuel : nat) :
  forall (retries : Z) (st : State W) (res : error) (st' : State W),
    RunWithoutCancellation fuel r work retries st = Some (res, st') ->
    (cancelled (trace st') -> cancelled (trace st))
    /\ exists tr err ret, trace st' = tr ++ [EvWork err ret].
Proof.
  induction fuel as [|fuel IH]; intros retries st res st' Hrun;
    [discriminate|].
  simpl in Hrun.
  destruct (work (world st)) as [[err ret] w'].
  assert (forall tr, cancelled (trace st ++ tr) ->
                     (forall d, ~ In (EvSleep d CaseDone) tr) ->
                     cancelled (trace st)) as Hkeep.
  { intros tr Hc Hno. apply cancelled_app in Hc.
    destruct Hc as [Hc | [d Hd]]; [exact Hc | elim (Hno d Hd)]. }
  destruct ret; simpl in Hrun.
  - destruct (negb (max r =? -1) && (retries >=? max r)).
    + inversion Hrun; subst. simpl. split; [|eauto].
      intros Hc. apply (Hkeep _ Hc). intros d [Hd | []]. discriminate.
    + apply IH in Hrun. destruct Hrun as [Hc Hlast]. split; [|exact Hlast].
      intros Hc'. apply Hc in Hc'. simpl in Hc'.
      rewrite <- !app_assoc in Hc'. apply (Hkeep _ Hc').
      intros d Hd. simpl in Hd.
      destruct Hd as [Hd | [Hd | [Hd | []]]]; discriminate.
  - inversion Hrun; subst. simpl. split; [|eauto].
    intros Hc. apply (Hkeep _ Hc). intros d [Hd | []]. discriminate.
Qed.

(** C9: Run(work) is RunCtx with the background context and the work
    function that ignores its context. It is the same run as that of the
    loop without a token, and as that of RunCtx with any token that never
    fires. So Run never returns a cancellation error: no suspension of its
    run is cut short, and the run ends with an invocation of the work
    function. *)
Theorem Run_is_RunCtx_background {W : Type} (r : Retrier) (work : Work W)
    (w : W) (fuel : nat) :
  Run fuel r work w = RunCtx fuel r Background (fun _ => work) w
  /\ Run fuel r work w = RunWithoutCancellation fuel r work 0 (mkState w [])
  /\ (forall ctx, never_fires ctx ->
                  RunCtx fuel r ctx (fun _ => work) w = Run fuel r work w)
  /\ (forall res st',
         Run fuel r work w = Some (res, st') ->
         ~ cancelled (trace st')
         /\ exists tr err ret, trace st' = tr ++ [EvWork err ret]).
Proof.
  assert (never_fires Background) as Hbg by (intros i d; reflexivity).
  assert (Run fuel r work w
          = RunWithoutCancellation fuel r work 0 (mkState w [])) as Hrun.
  { unfold Run, RunCtx. apply RunCtx_loop_never_fires. exact Hbg. }
  split; [reflexivity|]. split; [exact Hrun|]. split.
  - intros ctx Hnever. rewrite Hrun. unfold RunCtx.
    apply RunCtx_loop_never_fires. exact Hnever.
  - intros res st' Hres. rewrite Hrun in Hres.
    apply RunWithoutCancellation_ends in Hres.
    destruct Hres as [Hc Hlast]. split; [|exact Hlast].
    intros Hc'. apply Hc in Hc'. destruct Hc' as [d []].
Qed.

(** * Further properties of the package *)

(** ** The capped delay functions *)

Lemma float64_of_int_exact (z : Z) :
  - 2 ^ 53 <= z <= 2 ^ 53 -> float64_of_int z = z.
Proof.
  intros Hz. unfold float64_of_int.
  destruct (Z.eq_dec (Z.abs z) (2 ^ 53)) as [Heq | Hne].
  - assert (z = 2 ^ 53 \/ z = - 2 ^ 53) as [-> | ->] by lia; reflexivity.
  - destruct (Z.eq_dec z 0) as [-> | Hnz]; [reflexivity|].
    assert (Z.log2 (Z.abs z) < 53) as Hlog
      by (apply Z.log2_lt_pow2; lia).
    rewrite (proj2 (Z.ltb_lt _ _) Hlog). reflexivity.
Qed.

Lemma float64_of_int_large (z : Z) :
  2 ^ 53 <= z -> 2 ^ 53 <= float64_of_int z.
Proof.
  intros Hz. unfold float64_of_int.
  rewrite (Z.abs_eq z) by lia.
  assert (53 <= Z.log2 z) as Hlog.
  { change 53 with (Z.log2 (2 ^ 53)). apply Z.log2_le_mono. exact Hz. }
  rewrite (proj2 (Z.ltb_ge _ _) Hlog).
  set (e := Z.log2 z) in *. set (sh := e - 52).
  assert (2 ^ e <= z) as Hlow by (apply Z.log2_spec; lia).
  assert (0 < 2 ^ sh) as Hsh by (apply Z.pow_pos_nonneg; lia).
  assert (2 ^ e = 2 ^ 52 * 2 ^ sh) as He.
  { rewrite <- Z.pow_add_r by lia. f_equal. lia. }
  assert (2 ^ 52 <= z / 2 ^ sh) as Hq.
  { apply Z.div_le_lower_bound; lia. }
  assert (2 ^ 53 <= 2 ^ e) as Hpow by (apply Z.pow_le_mono_r; lia).
  rewrite Z.sgn_pos by lia.
  destruct ((2 ^ (sh - 1) <? z mod 2 ^ sh)
            || ((z mod 2 ^ sh =? 2 ^ (sh - 1)) && Z.odd (z / 2 ^ sh))); nia.
Qed.

Lemma math_Min_min (x y : Z) : math_Min x y = Z.min x y.
Proof.
  unfold math_Min. destruct (Z.ltb_spec x y); lia.
Qed.

Lemma CappedLinearDelay_as_min (step cap n : Z) :
  CappedLinearDelay step cap n = Z.min (LinearDelay step n) cap.
Proof.
  unfold CappedLinearDelay, LinearDelay.
  destruct (Z.ltb_spec (Int64.add step (Int64.mul n step)) cap); lia.
Qed.

(** X1: CappedLinearDelay(step, cap) is LinearDelay(step) cut off at cap:
    at every index it returns the smaller of cap and what LinearDelay(step)
    returns there, so it never returns more than cap, whatever the
    arguments are. *)
Theorem CappedLinearDelay_caps (step cap n : Z) :
  CappedLinearDelay step cap n = Z.min (LinearDelay step n) cap
  /\ CappedLinearDelay step cap n <= cap
  /\ CappedLinearDelay step cap n <= LinearDelay step n.
Proof.
  rewrite CappedLinearDelay_as_min. lia.
Qed.

(** X2: for a step that is not negative, CappedLinearDelay(step, cap) does
    not decrease from an index to a later one, as long as the uncapped
    delay of the later index fits a 64-bit duration; so once it has reached
    cap it stays there. *)
Theorem CappedLinearDelay_monotone (step cap n m : Z) :
  0 <= step ->
  0 <= n <= m ->
  Int64.in_range (step + m * step) ->
  CappedLinearDelay step cap n <= CappedLinearDelay step cap m
  /\ (CappedLinearDelay step cap n = cap ->
      CappedLinearDelay step cap m = cap).
Proof.
  intros Hstep Hnm Hr.
  rewrite !CappedLinearDelay_as_min, !LinearDelay_wrap.
  assert (0 <= n * step <= m * step) as Hmul by nia.
  assert (Int64.in_range (step + n * step)) as Hr' by int64_lia.
  rewrite !Int64_wrap_small by assumption.
  lia.
Qed.

Lemma CappedLinearDelay_monotone_witness :
  CappedLinearDelay Second (10 * Second) 5
  <= CappedLinearDelay Second (10 * Second) 25
  /\ (CappedLinearDelay Second (10 * Second) 5 = 10 * Second ->
      CappedLinearDelay Second (10 * Second) 25 = 10 * Second).
Proof.
  apply (CappedLinearDelay_monotone Second (10 * Second) 5 25).
  - discriminate.
  - lia.
  - unfold Int64.in_range, Int64.min_int, Int64.max_int. vm_compute.
    split; discriminate.
Defined.

(** X3: CappedExponentialDelay(coef, base, cap) with a cap between 0 and
    the longest duration, counted in milliseconds: at every index where the
    product coef * int(math.Pow(base, index)), as computed in 64 bits, is
    not negative, the function returns the smaller of that product and cap,
    in milliseconds. The passage through float64 loses nothing there, and
    the result lies between 0 and cap milliseconds. *)
Theorem CappedExponentialDelay_caps (intPow : Z -> Z -> Z) (int_overflow : Z)
    (coef base cap n : Z) :
  0 <= cap ->
  cap * Millisecond <= Int64.max_int ->
  0 <= Int64.mul coef (intPow base n) ->
  CappedExponentialDelay intPow int_overflow coef base cap n
  = Z.min (Int64.mul coef (intPow base n)) cap * Millisecond
  /\ 0 <= CappedExponentialDelay intPow int_overflow coef base cap n
     <= cap * Millisecond.
Proof.
  intros Hcap Hfit Hraw.
  unfold CappedExponentialDelay.
  set (raw := Int64.mul coef (intPow base n)) in *.
  assert (cap <= 2 ^ 53) as Hcap53.
  { unfold Millisecond, Microsecond, Nanosecond, Int64.max_int in Hfit. lia. }
  assert (math_Min (float64_of_int raw) (float64_of_int cap) = Z.min raw cap)
    as ->.
  { rewrite (float64_of_int_exact cap) by lia.
    destruct (Z_le_gt_dec raw (2 ^ 53)) as [Hsmall | Hbig].
    - rewrite (float64_of_int_exact raw) by lia. apply math_Min_min.
    - pose proof (float64_of_int_large raw ltac:(lia)).
      rewrite math_Min_min. lia. }
  assert (int_of_float64 int_overflow (Z.min raw cap) = Z.min raw cap) as ->.
  { unfold int_of_float64, Int64.min_int, Int64.max_int.
    rewrite (proj2 (Z.leb_le _ _)) by lia.
    rewrite (proj2 (Z.leb_le _ _)) by lia. reflexivity. }
  unfold Int64.mul.
  assert (Int64.in_range (Z.min raw cap * Millisecond)) as Hr.
  { unfold Millisecond, Microsecond, Nanosecond in *. int64_lia. }
  rewrite Int64_wrap_small by exact Hr.
  unfold Millisecond, Microsecond, Nanosecond in *. lia.
Qed.

(** One second doubling, capped at an hour: index 5 gives 32 s. *)
Lemma CappedExponentialDelay_caps_witness :
  CappedExponentialDelay Z.pow Int64.min_int 1000 2 3600000 5
  = Z.min (Int64.mul 1000 (2 ^ 5)) 3600000 * Millisecond
  /\ 0 <= CappedExponentialDelay Z.pow Int64.min_int 1000 2 3600000 5
     <= 3600000 * Millisecond.
Proof.
  apply (CappedExponentialDelay_caps Z.pow Int64.min_int 1000 2 3600000 5).
  - discriminate.
  - discriminate.
  - discriminate.
Defined.

(** ** Every run of the loop *)

Lemma budget_not_reached_lt (r : Retrier) (retries : Z) :
  max r <> -1 -> budget_reached r retries = false -> retries < max r.
Proof.
  intros Hm Hb. unfold budget_reached in Hb.
  rewrite (proj2 (Z.eqb_neq (max r) (-1)) Hm), Z.geb_leb in Hb.
  simpl in Hb. apply Z.leb_gt. exact Hb.
Qed.

Lemma Errorf_w_non_nil (prefix : string) (err : error) :
  Errorf_w prefix err <> Nil.
Proof. destruct err; discriminate. Qed.

Section LoopInvariants.

Context {W : Type}.
Variables (r : Retrier) (ctx : Context) (work : WorkCtx W).

(** One pass through the loop body, by what it adds to the trace: one
    invocation, and either nothing more (the pass returns the error of the
    work function or the wrapped error) or one call of the delay function
    with the counter and one suspension of the duration it gave (the pass
    goes on to the next iteration, or returns the error of the context). *)
Lemma body_account (retries : Z) (st : State W) (fl : Flow) (st' : State W) :
  body r ctx work retries st = (fl, st') ->
  world st' = state_after work ctx (world st) 1
  /\ invocations (trace st') = S (invocations (trace st))
  /\ ((delayf_calls (trace st') = delayf_calls (trace st)
       /\ suspensions (trace st') = suspensions (trace st)
       /\ exists res, fl = Return res
                      /\ (snd (outcome work ctx (world st) 0) = true ->
                          budget_reached r retries = true))
      \/ (delayf_calls (trace st') = delayf_calls (trace st) ++ [retries]
          /\ suspensions (trace st')
             = suspensions (trace st) ++ [delayf r retries]
          /\ snd (outcome work ctx (world st) 0) = true
          /\ budget_reached r retries = false
          /\ (fl = Next \/ (fl = Return (Err ctx) /\ Err ctx <> Nil)))).
Proof.
  intros Hb. apply body_inv in Hb.
  destruct Hb as (err & ret & w' & Hw & Hworld & Hcases).
  unfold outcome. simpl. rewrite Hw. simpl.
  split; [exact Hworld|].
  destruct Hcases as [(-> & -> & Htr) | [(-> & Hbud & -> & Htr)
                     | [(-> & Hbud & -> & Htr) | (-> & Hbud & -> & Htr)]]];
    rewrite Htr, invocations_app, delayf_calls_app, suspensions_app; simpl;
    rewrite ?app_nil_r; (split; [lia|]).
  - left. repeat split. eexists. split; [reflexivity | discriminate].
  - left. repeat split. eexists. split; [reflexivity | auto].
  - right. auto 7.
  - right. repeat split; auto.
    destruct (non_nil (Err ctx)) eqn:Hn; [right | left; reflexivity].
    split; [reflexivity|]. intros Hnil. rewrite Hnil in Hn. discriminate.
Qed.

(** The account of a run that returns, from any point of the loop: [n]
    suspensions and [k] invocations are added, the delay function was
    called with the successive values of the counter and gave the durations
    of the suspensions, every retry was asked for and allowed by the
    budget, and the state of the work function is the one after [k]
    invocations. *)
Lemma RunCtx_loop_account (fuel : nat) :
  forall (retries : Z) (st : State W) (res : error) (st' : State W),
    RunCtx_loop fuel r ctx work retries st = Some (res, st') ->
    exists n k : nat,
      delayf_calls (trace st')
      = delayf_calls (trace st) ++ map (retries_from retries) (seq 0 n)
      /\ suspensions (trace st')
         = suspensions (trace st)
           ++ map (fun j => delayf r (retries_from retries j)) (seq 0 n)
      /\ invocations (trace st') = (invocations (trace st) + k)%nat
      /\ world st' = state_after work ctx (world st) k
      /\ (k = S n \/ (k = n /\ (0 < n)%nat /\ res = Err ctx /\ res <> Nil))
      /\ (forall j, (j < n)%nat ->
                    budget_reached r (retries_from retries j) = false)
      /\ (forall j, (j < n)%nat ->
                    snd (outcome work ctx (world st) j) = true).
Proof.
  induction fuel as [|fuel IH]; intros retries st res st' Hrun;
    [discriminate|].
  rewrite RunCtx_loop_S in Hrun.
  destruct (body r ctx work retries st) as [fl st1] eqn:Hb.
  apply body_account in Hb.
  destruct Hb as (Hworld & Hinv & Hcases).
  destruct Hcases as [(Hcalls & Hsusp & res' & -> & _)
                     | (Hcalls & Hsusp & Hret & Hbud & Hfl)].
  - inversion Hrun; subst. exists O, 1%nat. simpl.
    rewrite !app_nil_r. repeat split; auto; try lia.
  - destruct Hfl as [-> | [-> Hnn]].
    + apply IH in Hrun.
      destruct Hrun as (n & k & Hc & Hs & Hi & Hw & Hk & Hb' & Hr').
      exists (S n), (S k). repeat split.
      * rewrite Hc, Hcalls, <- app_assoc. simpl.
        rewrite <- seq_shift, map_map. reflexivity.
      * rewrite Hs, Hsusp, <- app_assoc. simpl.
        rewrite <- seq_shift, map_map. reflexivity.
      * lia.
      * rewrite Hw, Hworld. reflexivity.
      * destruct Hk as [-> | (-> & Hpos & Hres & Hnn)];
          [left; reflexivity | right; repeat split; auto; lia].
      * intros [|j] Hj; [exact Hbud | apply Hb'; lia].
      * intros [|j] Hj; [exact Hret|].
        specialize (Hr' j ltac:(lia)). rewrite Hworld in Hr'. exact Hr'.
    + inversion Hrun; subst. exists 1%nat, 1%nat. simpl.
      split; [exact Hcalls|]. split; [exact Hsusp|].
      split; [lia|]. split; [exact Hworld|].
      split; [right; repeat split; auto|].
      split; (intros [|j] Hj; [assumption | lia]).
Qed.

(** With a limit, the loop returns before the counter has passed it. *)
Lemma RunCtx_loop_terminates (d : nat) :
  forall (retries : Z) (st : State W) (fuel : nat),
    max r <> -1 ->
    max r <= Int64.max_int ->
    Int64.in_range retries ->
    max r - retries <= Z.of_nat d ->
    (d < fuel)%nat ->
    exists res st', RunCtx_loop fuel r ctx work retries st = Some (res, st').
Proof.
  induction d as [|d IH]; intros retries st fuel Hm Hmax Hr Hd Hfuel;
    (destruct fuel as [|fuel]; [lia|]);
    rewrite RunCtx_loop_S;
    destruct (body r ctx work retries st) as [fl st1] eqn:Hb;
    apply body_account in Hb;
    destruct Hb as (_ & _ & [(_ & _ & res & -> & _)
                            | (_ & _ & _ & Hbud & [-> | [-> _]])]);
    eauto;
    apply budget_not_reached_lt in Hbud; try exact Hm.
  - lia.
  - apply IH; try assumption; try lia.
    + apply Int64_wrap_in_range.
    + unfold Int64.add. rewrite Int64_wrap_small by int64_lia. lia.
Qed.

End LoopInvariants.

(** Retries that the budget allowed are fewer than the limit says. *)
Lemma budget_bounds_retries (r : Retrier) (n : nat) :
  max r <> -1 ->
  max r <= Int64.max_int ->
  (forall j, (j < n)%nat -> budget_reached r (retries_after j) = false) ->
  (n <= Z.to_nat (max r))%nat.
Proof.
  intros Hm Hmax Hbud.
  destruct (Nat.le_gt_cases n (Z.to_nat (max r))) as [Hle | Hgt];
    [exact Hle|].
  specialize (Hbud (Z.to_nat (max r)) Hgt).
  rewrite retries_after_small in Hbud by int64_lia.
  rewrite budget_reached_at in Hbud by lia. discriminate.
Qed.

(** ** The retry limit *)

(** X4: a retrier with a limit always returns. Whatever the work function
    and the context do, RunCtx with a limit other than -1 returns within
    max+1 passes through its loop (within one pass when the limit is
    negative). *)
Theorem RunCtx_limited_terminates {W : Type} (r : Retrier) (ctx : Context)
    (work : WorkCtx W) (w : W) (fuel : nat) :
  max r <> -1 ->
  max r <= Int64.max_int ->
  (Z.to_nat (max r) < fuel)%nat ->
  exists (res : error) (st' : State W),
    RunCtx fuel r ctx work w = Some (res, st').
Proof.
  intros Hm Hmax Hfuel. unfold RunCtx.
  apply (RunCtx_loop_terminates r ctx work (Z.to_nat (max r)));
    try assumption.
  - int64_lia.
  - lia.
Qed.

Lemma RunCtx_limited_terminates_witness :
  exists (res : error) (st' : State nat),
    RunCtx 6 retrier_5 deadline_ctx counting_task O = Some (res, st').
Proof.
  apply (RunCtx_limited_terminates retrier_5 deadline_ctx counting_task O 6).
  - discriminate.
  - discriminate.
  - simpl. lia.
Defined.

(** X5: the limit bounds the retries of every run. When RunCtx with a
    limit other than -1 returns, it has suspended at most max times and
    invoked the work function at most max+1 times (not at all and once,
    when the limit is negative), whatever the work function returned and
    whatever the context did. *)
Theorem RunCtx_limited_bounds {W : Type} (r : Retrier) (ctx : Context)
    (work : WorkCtx W) (w : W) (fuel : nat) (res : error) (st' : State W) :
  max r <> -1 ->
  max r <= Int64.max_int ->
  RunCtx fuel r ctx work w = Some (res, st') ->
  (List.length (suspensions (trace st')) <= Z.to_nat (max r))%nat
  /\ (invocations (trace st') <= S (Z.to_nat (max r)))%nat.
Proof.
  intros Hm Hmax Hrun. unfold RunCtx in Hrun.
  apply RunCtx_loop_account in Hrun.
  destruct Hrun as (n & k & _ & Hs & Hi & _ & Hk & Hbud & _).
  simpl in Hs, Hi. rewrite Hs, length_map, length_seq. rewrite Hi.
  pose proof (budget_bounds_retries r n Hm Hmax Hbud) as Hn.
  destruct Hk as [-> | (-> & _)]; lia.
Qed.

Lemma RunCtx_limited_bounds_witness :
  (List.length
     (suspensions
        [EvWork (errorString "count too small") true; EvDelayf 0;
         EvSleep (delayf retrier_5 0) CaseTimer;
         EvWork (errorString "count too small") true; EvDelayf 1;
         EvSleep (delayf retrier_5 1) CaseDone]) <= Z.to_nat (max retrier_5))%nat
  /\ (invocations
        [EvWork (errorString "count too small") true; EvDelayf 0;
         EvSleep (delayf retrier_5 0) CaseTimer;
         EvWork (errorString "count too small") true; EvDelayf 1;
         EvSleep (delayf retrier_5 1) CaseDone] <= S (Z.to_nat (max retrier_5)))%nat.
Proof.
  apply (RunCtx_limited_bounds retrier_5 deadline_ctx counting_task O 6
           DeadlineExceeded
           (mkState 2%nat
              [EvWork (errorString "count too small") true; EvDelayf 0;
               EvSleep (delayf retrier_5 0) CaseTimer;
               EvWork (errorString "count too small") true; EvDelayf 1;
               EvSleep (delayf retrier_5 1) CaseDone])).
  - discriminate.
  - discriminate.
  - reflexivity.
Defined.

(** X6: the account of every run of RunCtx that returns, with n the number
    of its suspensions. The delay function was called n times, with the
    successive values of the counter (0, 1, ... as long as they fit an
    int), and each suspension lasted what the call before it returned. The
    work function was invoked n+1 times, or n times when the run returns
    the error of the context; each of its invocations started from the
    state its last one left, and the final state is the one after the last
    invocation. *)
Theorem RunCtx_account {W : Type} (r : Retrier) (ctx : Context)
    (work : WorkCtx W) (w : W) (fuel : nat) (res : error) (st' : State W) :
  RunCtx fuel r ctx work w = Some (res, st') ->
  exists n : nat,
    delayf_calls (trace st') = map retries_after (seq 0 n)
    /\ suspensions (trace st') = map (delayf r) (delayf_calls (trace st'))
    /\ (invocations (trace st') = S n
        \/ (invocations (trace st') = n /\ (0 < n)%nat
            /\ res = Err ctx /\ res <> Nil))
    /\ world st' = state_after work ctx w (invocations (trace st'))
    /\ (forall j, (j < n)%nat -> snd (outcome work ctx w j) = true).
Proof.
  intros Hrun. unfold RunCtx in Hrun.
  apply RunCtx_loop_account in Hrun.
  destruct Hrun as (n & k & Hc & Hs & Hi & Hw & Hk & _ & Hr).
  simpl in Hc, Hs, Hi, Hw, Hr. exists n.
  split; [exact Hc|]. split; [rewrite Hs, Hc, map_map; reflexivity|].
  rewrite Hi. split; [|split; [exact Hw | exact Hr]].
  destruct Hk as [-> | (-> & Hpos & Hres & Hnn)]; [left | right]; auto.
Qed.

Lemma RunCtx_account_witness :
  exists n : nat,
    delayf_calls
      [EvWork (errorString "error") true; EvDelayf 0;
       EvSleep (delayf retrier_unlimited 0) CaseTimer;
       EvWork (errorString "error") true; EvDelayf 1;
       EvSleep (delayf retrier_unlimited 1) CaseDone]
    = map retries_after (seq 0 n)
    /\ suspensions
         [EvWork (errorString "error") true; EvDelayf 0;
          EvSleep (delayf retrier_unlimited 0) CaseTimer;
          EvWork (errorString "error") true; EvDelayf 1;
          EvSleep (delayf retrier_unlimited 1) CaseDone]
       = map (delayf retrier_unlimited)
           (delayf_calls
              [EvWork (errorString "error") true; EvDelayf 0;
               EvSleep (delayf retrier_unlimited 0) CaseTimer;
               EvWork (errorString "error") true; EvDelayf 1;
               EvSleep (delayf retrier_unlimited 1) CaseDone])
    /\ (invocations
          [EvWork (errorString "error") true; EvDelayf 0;
           EvSleep (delayf retrier_unlimited 0) CaseTimer;
           EvWork (errorString "error") true; EvDelayf 1;
           EvSleep (delayf retrier_unlimited 1) CaseDone] = S n
        \/ (invocations
              [EvWork (errorString "error") true; EvDelayf 0;
               EvSleep (delayf retrier_unlimited 0) CaseTimer;
               EvWork (errorString "error") true; EvDelayf 1;
               EvSleep (delayf retrier_unlimited 1) CaseDone] = n
            /\ (0 < n)%nat
            /\ DeadlineExceeded = Err deadline_ctx
            /\ DeadlineExceeded <> Nil))
    /\ tt = state_after failing_task deadline_ctx tt
              (invocations
                 [EvWork (errorString "error") true; EvDelayf 0;
                  EvSleep (delayf retrier_unlimited 0) CaseTimer;
                  EvWork (errorString "error") true; EvDelayf 1;
                  EvSleep (delayf retrier_unlimited 1) CaseDone])
    /\ (forall j, (j < n)%nat ->
                  snd (outcome failing_task deadline_ctx tt j) = true).
Proof.
  apply (RunCtx_account retrier_unlimited deadline_ctx failing_task tt 2
           DeadlineExceeded
           (mkState tt
              [EvWork (errorString "error") true; EvDelayf 0;
               EvSleep (delayf retrier_unlimited 0) CaseTimer;
               EvWork (errorString "error") true; EvDelayf 1;
               EvSleep (delayf retrier_unlimited 1) CaseDone])).
  reflexivity.
Defined.

(** X7: RunCtx reports success only when the work function did. If RunCtx
    returns nil, the last thing that happened is an invocation of the work
    function that returned (nil, false): neither a used-up budget nor a
    cancelled context ever gives nil, also not when the work function
    returned a nil error together with shouldRetry = true. *)
Theorem RunCtx_nil_is_success {W : Type} (r : Retrier) (ctx : Context)
    (work : WorkCtx W) (w : W) (fuel : nat) (st' : State W) :
  RunCtx fuel r ctx work w = Some (Nil, st') ->
  exists tr, trace st' = tr ++ [EvWork Nil false].
Proof.
  intros Hrun. unfold RunCtx in Hrun.
  apply RunCtx_loop_ends in Hrun.
  destruct Hrun as [Hw | [(tr & err & retries' & _ & Hres & _)
                         | (tr & dur & _ & _ & Hnn)]].
  - exact Hw.
  - symmetry in Hres. elim (Errorf_w_non_nil _ _ Hres).
  - congruence.
Qed.

Lemma RunCtx_nil_is_success_witness :
  exists tr,
    [EvWork (errorString "count too small") true; EvDelayf 0;
     EvSleep (delayf retrier_5 0) CaseTimer;
     EvWork (errorString "count too small") true; EvDelayf 1;
     EvSleep (delayf retrier_5 1) CaseTimer;
     EvWork (errorString "count too small") true; EvDelayf 2;
     EvSleep (delayf retrier_5 2) CaseTimer;
     EvWork Nil false]
    = tr ++ [EvWork Nil false].
Proof.
  apply (RunCtx_nil_is_success retrier_5 Background counting_task O 4
           (mkState 3%nat
              [EvWork (errorString "count too small") true; EvDelayf 0;
               EvSleep (delayf retrier_5 0) CaseTimer;
               EvWork (errorString "count too small") true; EvDelayf 1;
               EvSleep (delayf retrier_5 1) CaseTimer;
               EvWork (errorString "count too small") true; EvDelayf 2;
               EvSleep (delayf retrier_5 2) CaseTimer;
               EvWork Nil false])).
  reflexivity.
Defined.

(** ** The context *)

(** X8: RunCtx does not look at its context before it invokes the work
    function. With a context that is cancelled from the start (it ends
    every suspension at once, with a non-nil error), RunCtx still invokes
    the work function, exactly once, and returns after that: the error of
    the work function when it does not ask for a retry, the wrapped error
    when the budget allows no retry, and only otherwise the error of the
    context. *)
Theorem RunCtx_cancelled_from_start {W : Type} (r : Retrier) (ctx : Context)
    (work : WorkCtx W) (w w' : W) (err : error) (ret : bool) (fuel : nat) :
  (forall i dur, Done ctx i dur = true) ->
  Err ctx <> Nil ->
  work ctx w = ((err, ret), w') ->
  exists st' : State W,
    RunCtx (S fuel) r ctx work w
    = Some (if negb ret then err
            else if budget_reached r 0
                 then Errorf_w max_retries_prefix err
                 else Err ctx,
            st')
    /\ invocations (trace st') = 1%nat
    /\ world st' = w'.
Proof.
  intros Hdone Hnn Hw. unfold RunCtx. rewrite RunCtx_loop_S.
  destruct ret; simpl.
  - destruct (budget_reached r 0) eqn:Hbud.
    + rewrite (body_budget r ctx work 0 (mkState w []) err w' Hw Hbud).
      eexists. split; [reflexivity|]. split; reflexivity.
    + rewrite (body_done r ctx work 0 (mkState w []) err w' Hw Hbud).
      * eexists. split; [reflexivity|]. split; reflexivity.
      * apply Hdone.
      * destruct (Err ctx); [congruence | reflexivity ..].
  - rewrite (body_no_retry r ctx work 0 (mkState w []) err w' Hw).
    eexists. split; [reflexivity|]. split; reflexivity.
Qed.

Lemma RunCtx_cancelled_from_start_witness :
  exists st' : State unit,
    RunCtx 1 retrier_5 (mkContext (fun _ _ => true) Canceled) fatal_task tt
    = Some (if negb false then errorString "fatal error"
            else if budget_reached retrier_5 0
                 then Errorf_w max_retries_prefix (errorString "fatal error")
                 else Err (mkContext (fun _ _ => true) Canceled),
            st')
    /\ invocations (trace st') = 1%nat
    /\ world st' = tt.
Proof.
  apply (RunCtx_cancelled_from_start retrier_5
           (mkContext (fun _ _ => true) Canceled) fatal_task tt tt
           (errorString "fatal error") false 0).
  - intros i dur. reflexivity.
  - discriminate.
  - reflexivity.
Defined.

(** X9: without a limit nothing but the work function or the context ends
    a run. With the limit set to -1, a work function that asks for a retry
    at every invocation and a context that ends no suspension, RunCtx never
    returns: however many passes through the loop are run, there is no
    result. *)
Theorem RunCtx_unlimited_never_returns {W : Type} (r : Retrier)
    (ctx : Context) (work : WorkCtx W) (w : W) (fuel : nat) :
  max r = -1 ->
  (forall j, snd (outcome work ctx w j) = true) ->
  (forall j, Done ctx j (delayf r (retries_after j)) = false) ->
  RunCtx fuel r ctx work w = None.
Proof.
  intros Hmax Hretry Hdone.
  destruct (RunCtx_loop_rounds r ctx work fuel 0 (mkState w []) 0)
    as (st1 & Hrun & _).
  - intros j _. apply Hretry.
  - intros j _. apply budget_not_reached_unlimited. exact Hmax.
  - intros j _. apply Hdone.
  - rewrite Nat.add_0_r in Hrun. exact Hrun.
Qed.

Lemma RunCtx_unlimited_never_returns_witness :
  RunCtx 1000 retrier_unlimited Background failing_task tt = None.
Proof.
  apply (RunCtx_unlimited_never_returns retrier_unlimited Background
           failing_task tt 1000).
  - reflexivity.
  - intros j. unfold outcome.
    induction j as [|j IH]; [reflexivity | exact IH].
  - intros j. reflexivity.
Defined.

(** ** Run *)

(** X10: Run with a limit always returns, and what it returns comes from
    the work function. With a limit other than -1, Run returns within
    max+1 invocations of the work function; the result is the error of the
    last invocation when that one did not ask for a retry, and otherwise
    the error that wraps it because the budget is used up. *)
Theorem Run_limited_returns {W : Type} (r : Retrier) (work : Work W) (w : W)
    (fuel : nat) :
  max r <> -1 ->
  max r <= Int64.max_int ->
  (Z.to_nat (max r) < fuel)%nat ->
  exists (res : error) (st' : State W),
    Run fuel r work w = Some (res, st')
    /\ (invocations (trace st') <= S (Z.to_nat (max r)))%nat
    /\ ((exists tr, trace st' = tr ++ [EvWork res false])
        \/ (exists tr err,
               trace st' = tr ++ [EvWork err true]
               /\ res = Errorf_w max_retries_prefix err)).
Proof.
  intros Hm Hmax Hfuel. unfold Run, RunCtx.
  destruct (RunCtx_loop_terminates r Background (fun _ => work)
              (Z.to_nat (max r)) 0 (mkState w []) fuel)
    as (res & st' & Hrun); try assumption; try int64_lia.
  exists res, st'. split; [exact Hrun|]. split.
  - apply RunCtx_loop_account in Hrun.
    destruct Hrun as (n & k & _ & _ & Hi & _ & Hk & Hbud & _).
    simpl in Hi. rewrite Hi.
    pose proof (budget_bounds_retries r n Hm Hmax Hbud) as Hn.
    destruct Hk as [-> | (-> & _)]; lia.
  - apply RunCtx_loop_ends in Hrun.
    destruct Hrun as [Hw | [(tr & err & retries' & Htr & Hres & _)
                           | (tr & dur & _ & Hres & Hnn)]].
    + left. exact Hw.
    + right. eauto.
    + simpl in Hres. congruence.
Qed.

Lemma Run_limited_returns_witness :
  exists (res : error) (st' : State nat),
    Run 6 retrier_5 (counting_task Background) O = Some (res, st')
    /\ (invocations (trace st') <= S (Z.to_nat (max retrier_5)))%nat
    /\ ((exists tr, trace st' = tr ++ [EvWork res false])
        \/ (exists tr err,
               trace st' = tr ++ [EvWork err true]
               /\ res = Errorf_w max_retries_prefix err)).
Proof.
  apply (Run_limited_returns retrier_5 (counting_task Background) O 6).
  - discriminate.
  - discriminate.
  - simpl. lia.
Defined.

(** ** NoDelay *)

(** X11: a retrier built with NoDelay never waits. In every run of RunCtx
    with NewRetrier(max, NoDelay()) that returns, each suspension has the
    duration zero, whatever the limit, the work function and the context. *)
Theorem RunCtx_NoDelay_never_waits {W : Type} (max : Z) (ctx : Context)
    (work : WorkCtx W) (w : W) (fuel : nat) (res : error) (st' : State W) :
  RunCtx fuel (NewRetrier max NoDelay) ctx work w = Some (res, st') ->
  Forall (fun dur => dur = 0) (suspensions (trace st')).
Proof.
  intros Hrun. unfold RunCtx in Hrun.
  apply RunCtx_loop_account in Hrun.
  destruct Hrun as (n & k & _ & Hs & _).
  simpl in Hs. rewrite Hs. apply Forall_forall.
  intros dur Hin. apply in_map_iff in Hin.
  destruct Hin as (j & <- & _). reflexivity.
Qed.

Lemma RunCtx_NoDelay_never_waits_witness :
  Forall (fun dur => dur = 0)
    (suspensions
       [EvWork (errorString "count too small") true; EvDelayf 0;
        EvSleep 0 CaseTimer;
        EvWork (errorString "count too small") true; EvDelayf 1;
        EvSleep 0 CaseTimer;
        EvWork (errorString "count too small") true; EvDelayf 2;
        EvSleep 0 CaseTimer;
        EvWork Nil false]).
Proof.
  apply (RunCtx_NoDelay_never_waits 5 Background counting_task O 4 Nil
           (mkState 3%nat
              [EvWork (errorString "count too small") true; EvDelayf 0;
               EvSleep 0 CaseTimer;
               EvWork (errorString "count too small") true; EvDelayf 1;
               EvSleep 0 CaseTimer;
               EvWork (errorString "count too small") true; EvDelayf 2;
               EvSleep 0 CaseTimer;
               EvWork Nil false])).
  reflexivity.
Defined.

(** ** What RunCtx returns *)

(** X12: an error that RunCtx returns is of one of three kinds, and the
    last thing that happened in the run tells which. It is the result of
    the last invocation of the work function, which did not ask for a
    retry; or, with a limit other than -1, the error that wraps the error
    of the last invocation, which asked for a retry; or the non-nil error
    of the context, which ended the last suspension. *)
Theorem RunCtx_outcomes {W : Type} (r : Retrier) (ctx : Context)
    (work : WorkCtx W) (w : W) (fuel : nat) (res : error) (st' : State W) :
  RunCtx fuel r ctx work w = Some (res, st') ->
  (exists tr, trace st' = tr ++ [EvWork res false])
  \/ (exists tr err,
         trace st' = tr ++ [EvWork err true]
         /\ res = Errorf_w max_retries_prefix err
         /\ max r <> -1)
  \/ (exists tr dur,
         trace st' = tr ++ [EvSleep dur CaseDone]
         /\ res = Err ctx /\ res <> Nil).
Proof.
  intros Hrun. unfold RunCtx in Hrun.
  apply RunCtx_loop_ends in Hrun.
  destruct Hrun as [Hw | [(tr & err & retries' & Htr & Hres & Hbud) | Hc]].
  - left. exact Hw.
  - right; left. exists tr, err. repeat split; try assumption.
    intros Hmax.
    rewrite budget_not_reached_unlimited in Hbud by exact Hmax.
    discriminate.
  - right; right. exact Hc.
Qed.

Lemma RunCtx_outcomes_witness :
  (exists tr,
      [EvWork (errorString "error") true]
      = tr ++ [EvWork (Errorf_w max_retries_prefix (errorString "error"))
                      false])
  \/ (exists tr err,
         [EvWork (errorString "error") true] = tr ++ [EvWork err true]
         /\ Errorf_w max_retries_prefix (errorString "error")
            = Errorf_w max_retries_prefix err
         /\ max (NewRetrier 0 NoDelay) <> -1)
  \/ (exists tr dur,
         [EvWork (errorString "error") true] = tr ++ [EvSleep dur CaseDone]
         /\ Errorf_w max_retries_prefix (errorString "error")
            = Err Background
         /\ Errorf_w max_retries_prefix (errorString "error") <> Nil).
Proof.
  apply (RunCtx_outcomes (NewRetrier 0 NoDelay) Background failing_task tt 1
           (Errorf_w max_retries_prefix (errorString "error"))
           (mkState tt [EvWork (errorString "error") true])).
  reflexivity.
Defined.

(** X13: a context ends a run only through a non-nil error. When
    [ctx.Err()] is nil, sleep returns nil also if the Done channel
    delivered first, and RunCtx goes on as if the delay had elapsed: a run
    that returns then ends with an invocation of the work function, never
    with a suspension. *)
Theorem RunCtx_nil_Err_never_cancels {W : Type} (r : Retrier) (ctx : Context)
    (work : WorkCtx W) (w : W) (fuel : nat) (res : error) (st' : State W) :
  Err ctx = Nil ->
  RunCtx fuel r ctx work w = Some (res, st') ->
  exists tr err ret, trace st' = tr ++ [EvWork err ret].
Proof.
  intros Herr Hrun. unfold RunCtx in Hrun.
  apply RunCtx_loop_ends in Hrun.
  destruct Hrun as [(tr & Htr) | [(tr & err & retries' & Htr & _)
                                 | (tr & dur & _ & Hres & Hnn)]].
  - eauto.
  - eauto.
  - congruence.
Qed.

Lemma RunCtx_nil_Err_never_cancels_witness :
  exists tr err ret,
    [EvWork (errorString "count too small") true; EvDelayf 0;
     EvSleep (delayf retrier_5 0) CaseDone;
     EvWork (errorString "count too small") true; EvDelayf 1;
     EvSleep (delayf retrier_5 1) CaseDone;
     EvWork (errorString "count too small") true; EvDelayf 2;
     EvSleep (delayf retrier_5 2) CaseDone;
     EvWork Nil false]
    = tr ++ [EvWork err ret].
Proof.
  apply (RunCtx_nil_Err_never_cancels retrier_5
           (mkContext (fun _ _ => true) Nil) counting_task O 4 Nil
           (mkState 3%nat
              [EvWork (errorString "count too small") true; EvDelayf 0;
               EvSleep (delayf retrier_5 0) CaseDone;
               EvWork (errorString "count too small") true; EvDelayf 1;
               EvSleep (delayf retrier_5 1) CaseDone;
               EvWork (errorString "count too small") true; EvDelayf 2;
               EvSleep (delayf retrier_5 2) CaseDone;
               EvWork Nil false])).
  - reflexivity.
  - reflexivity.
Defined.
